(** * Reconciliation agent: a shallow embedding of the matching and FX core

    The development follows the Python sources module by module:
    - [Py]: the fragment of the Python run time the sources rely on
      (binary64 floats, truthiness, [round(x, 2)], exceptions, [str] methods);
    - [MarkupAnalyzer]: [markup_analyzer.py];
    - [FxDetector]: [fx_detector.py];
    - [CcMonitor]: [cc_monitor.py];
    - [StripeIntegrityChecker]: [stripe_integrity_checker.py].

    Python floats are IEEE binary64 numbers and are modelled by Rocq's primitive
    floats; text is modelled as byte strings (UTF-8), with case mapping and
    character classes defined on the ASCII range. *)

From Stdlib Require Import ZArith Floats Bool List Ascii String Lia.
From stdpp Require Import gmap strings.

Set Warnings "-inexact-float".
Local Open Scope Z_scope.

(** * The Python run time *)
Module Py.

(** Exceptions the modelled code can raise. *)
Inductive exn : Type :=
| ZeroDivisionError
| TypeError
| OverflowError
| KeyError (key : string).

(** A computation either returns a value or raises. *)
Inductive res (A : Type) : Type :=
| Ok (a : A)
| Raise (e : exn).
Arguments Ok {A} a.
Arguments Raise {A} e.

#[global] Instance res_ret : MRet res := fun A a => Ok a.
#[global] Instance res_bind : MBind res := fun A B k c =>
  match c with
  | Ok a => k a
  | Raise e => Raise e
  end.

(** Dynamically typed values, as far as the sources inspect them. *)
Inductive pyval : Type :=
| PNone
| PBool (b : bool)
| PFloat (x : float)
| PStr (s : string).

(** [bool(x)] for a float: zero of either sign is false, NaN is true. *)
Definition float_truthy (x : float) : bool := negb (x =? 0)%float.

Definition truthy (v : pyval) : bool :=
  match v with
  | PNone => false
  | PBool b => b
  | PFloat x => float_truthy x
  | PStr s => negb (String.eqb s "")
  end.

(** [not x] for [x : Optional[float]]. *)
Definition not_ (x : option float) : bool :=
  match x with
  | None => true
  | Some v => negb (float_truthy v)
  end.

(** [a / b] on floats: Python raises on a zero divisor instead of
    returning an infinity or NaN. *)
Definition truediv (a b : float) : res float :=
  if (b =? 0)%float then Raise ZeroDivisionError else Ok (a / b)%float.

(** Round a non-negative fraction [num / den] to the nearest integer,
    ties to even. *)
Definition round_half_even (num den : Z) : Z :=
  let q := num / den in
  match Z.compare (2 * (num mod den)) den with
  | Lt => q
  | Gt => q + 1
  | Eq => if Z.even q then q else q + 1
  end.

(** [round(x, 2)]: CPython rounds the exact binary value of [x] to two
    decimals (ties to even) and converts that decimal back to the
    nearest double; zeros, infinities and NaN round to themselves. *)
Definition round2 (x : float) : float :=
  match Prim2SF x with
  | S754_finite s m e =>
      let n := match e with
               | Zneg p => round_half_even (Zpos m * 100) (2 ^ Zpos p)
               | _ => Zpos m * 100 * 2 ^ e
               end in
      match n with
      | Zpos p => SF2Prim (SF64div (S754_finite s p 0) (S754_finite false 100 0))
      | _ => if s then PrimFloat.neg_zero else PrimFloat.zero
      end
  | _ => x
  end.

(** [x > tol] holds. *)
Definition exceeds (x tol : float) : Prop := (tol <? x)%float = true.

(** A float that is a number: not NaN. *)
Definition number (x : float) : Prop := PrimFloat.is_nan x = false.

(** [sep.join(parts)]. *)
Fixpoint join (sep : string) (parts : list string) : string :=
  match parts with
  | [] => ""
  | [p] => p
  | p :: rest => p ++ sep ++ join sep rest
  end.

(** [min(a, b)] on floats: [b] when [b < a], else [a]. *)
Definition min_ (a b : float) : float := if (b <? a)%float then b else a.

(** ** Text *)

Definition is_upper (c : ascii) : bool :=
  (65 <=? nat_of_ascii c)%nat && (nat_of_ascii c <=? 90)%nat.
Definition is_lower (c : ascii) : bool :=
  (97 <=? nat_of_ascii c)%nat && (nat_of_ascii c <=? 122)%nat.
Definition is_digit (c : ascii) : bool :=
  (48 <=? nat_of_ascii c)%nat && (nat_of_ascii c <=? 57)%nat.

Definition lower_char (c : ascii) : ascii :=
  if is_upper c then ascii_of_nat (nat_of_ascii c + 32) else c.
Definition upper_char (c : ascii) : ascii :=
  if is_lower c then ascii_of_nat (nat_of_ascii c - 32) else c.

(** [s.lower()] and [s.upper()]. *)
Fixpoint lower (s : string) : string :=
  match s with
  | EmptyString => EmptyString
  | String c rest => String (lower_char c) (lower rest)
  end.
Fixpoint upper (s : string) : string :=
  match s with
  | EmptyString => EmptyString
  | String c rest => String (upper_char c) (upper rest)
  end.

(** [needle in hay]. *)
Fixpoint contains (needle hay : string) : bool :=
  String.prefix needle hay
  || match hay with
     | EmptyString => false
     | String _ rest => contains needle rest
     end.

(** [bool(s)] for [s : Optional[str]]. *)
Definition str_truthy (s : option string) : bool :=
  match s with
  | None => false
  | Some t => negb (String.eqb t "")
  end.

(** ** Regular expressions

    The fragment of [re] the sources use, compiled with [re.IGNORECASE]:
    literal characters, [\s], [\b], concatenation, alternation, an optional
    group, and [*] and [+] on a single character class. *)

Inductive cls : Type :=
| CChar (c : ascii)
| CSpace.

Inductive regex : Type :=
| Eps
| Chr (k : cls)
| Star (k : cls)
| Plus (k : cls)
| Bound
| Seq (r1 r2 : regex)
| Alt (r1 r2 : regex)
| Opt (r : regex).

(** [\s] on the ASCII range: space, tab, line feed, vertical tab, form
    feed, carriage return and the four separators 28-31. *)
Definition is_space (c : ascii) : bool :=
  let n := nat_of_ascii c in
  (n =? 32)%nat || ((9 <=? n)%nat && (n <=? 13)%nat)
  || ((28 <=? n)%nat && (n <=? 31)%nat).

(** [\w] on the ASCII range. *)
Definition is_word (c : ascii) : bool :=
  is_upper c || is_lower c || is_digit c || Ascii.eqb c "_".

Definition cls_match (k : cls) (a : ascii) : bool :=
  match k with
  | CChar c => Ascii.eqb (lower_char a) (lower_char c)
  | CSpace => is_space a
  end.

(** [\b]: exactly one of the characters around the position is a word
    character; the ends of the text count as non-word. *)
Definition at_boundary (prev : option ascii) (s : string) : bool :=
  xorb (from_option is_word false prev)
       (match s with String a _ => is_word a | EmptyString => false end).

(** Zero or more characters of class [k], then the continuation. *)
Fixpoint star_loop (k : cls) (cont : option ascii -> string -> bool)
    (prev : option ascii) (s : string) : bool :=
  cont prev s
  || match s with
     | String a rest => cls_match k a && star_loop k cont (Some a) rest
     | EmptyString => false
     end.

(** [rmatch r prev s cont]: [r] matches a prefix of [s] (with [prev] the
    character before it) and [cont] accepts what follows. *)
Fixpoint rmatch (r : regex) (prev : option ascii) (s : string)
    (cont : option ascii -> string -> bool) : bool :=
  match r with
  | Eps => cont prev s
  | Chr k =>
      match s with
      | String a rest => cls_match k a && cont (Some a) rest
      | EmptyString => false
      end
  | Star k => star_loop k cont prev s
  | Plus k =>
      match s with
      | String a rest => cls_match k a && star_loop k cont (Some a) rest
      | EmptyString => false
      end
  | Bound => at_boundary prev s && cont prev s
  | Seq r1 r2 => rmatch r1 prev s (fun p rest => rmatch r2 p rest cont)
  | Alt r1 r2 => rmatch r1 prev s cont || rmatch r2 prev s cont
  | Opt r1 => rmatch r1 prev s cont || cont prev s
  end.

Fixpoint search_from (r : regex) (prev : option ascii) (s : string) : bool :=
  rmatch r prev s (fun _ _ => true)
  || match s with
     | String a rest => search_from r (Some a) rest
     | EmptyString => false
     end.

(** [bool(pattern.search(s))]. *)
Definition search (r : regex) (s : string) : bool := search_from r None s.

(** A run of literal characters. *)
Fixpoint lit (s : string) : regex :=
  match s with
  | EmptyString => Eps
  | String c rest => Seq (Chr (CChar c)) (lit rest)
  end.

(** [re.compile("|".join(patterns))]; the empty join is the empty pattern. *)
Fixpoint alternation (patterns : list regex) : regex :=
  match patterns with
  | [] => Eps
  | [p] => p
  | p :: rest => Alt p (alternation rest)
  end.

End Py.
Import Py.

(** * markup_analyzer.py *)
Module MarkupAnalyzer.

Record MarkupResult : Type := {
  is_flagged : bool;
  markup_pct : option float;
  inr_diff : option float;
  status : string;
  reason : string;
}.

(** The rupee sign of the reason text, U+20B9 in UTF-8. *)
Definition rupee : string := "₹".

Section Analyzer.

(** [FX_MARKUP_TOL] and [FX_INR_TOL], read once from the settings. *)
Variable FX_MARKUP_TOL : float.
Variable FX_INR_TOL : float.
(** How an f-string renders a float ([format(x, '')]). *)
Variable fmt : float -> string.

Definition SKIPPED_result : MarkupResult :=
  {| is_flagged := false; markup_pct := None; inr_diff := None;
     status := "SKIPPED"; reason := "Missing core values for analysis" |}.

Definition BYPASS_result : MarkupResult :=
  {| is_flagged := false; markup_pct := None; inr_diff := None;
     status := "BYPASS";
     reason := "DCC transaction detected, markup check not applicable" |}.

(** [fx_context and fx_context.get("is_dcc")], as a truth value. *)
Definition ctx_is_dcc (fx_context : option (gmap string pyval)) : bool :=
  match fx_context with
  | None => false
  | Some d =>
      negb (Nat.eqb (size d) 0) && truthy (default PNone (d !! "is_dcc"))
  end.

Definition markup_reason (markup : float) : string :=
  "Markup " ++ fmt markup ++ "% exceeds " ++ fmt FX_MARKUP_TOL ++ "%".

Definition inr_reason (diff : float) : string :=
  "INR difference " ++ rupee ++ fmt (PrimFloat.abs diff) ++ " exceeds " ++ rupee
    ++ fmt FX_INR_TOL.

(** Lines 75-100: the computation once the guards have passed. *)
Definition markup_core (foreign_amount charged_inr interbank_rate : float)
  : res MarkupResult :=
  let expected_inr := (foreign_amount * interbank_rate)%float in
  let inr_diff := round2 (charged_inr - expected_inr)%float in
  actual_rate ← truediv charged_inr foreign_amount;
  ratio ← truediv (actual_rate - interbank_rate)%float interbank_rate;
  let markup_pct := round2 (ratio * 100)%float in
  let is_markup_exceeded := (FX_MARKUP_TOL <? markup_pct)%float in
  let is_inr_diff_exceeded := (FX_INR_TOL <? PrimFloat.abs inr_diff)%float in
  if is_markup_exceeded || is_inr_diff_exceeded then
    let reasons :=
      (if is_markup_exceeded then [markup_reason markup_pct] else [])
        ++ (if is_inr_diff_exceeded then [inr_reason inr_diff] else []) in
    Ok {| is_flagged := true; markup_pct := Some markup_pct;
          inr_diff := Some inr_diff; status := "FLAGGED";
          reason := join "; " reasons |}
  else
    Ok {| is_flagged := false; markup_pct := Some markup_pct;
          inr_diff := Some inr_diff; status := "OK";
          reason := "Within thresholds" |}.

Definition analyze_markup
    (foreign_amount charged_inr interbank_rate : option float)
    (fx_context : option (gmap string pyval)) : res MarkupResult :=
  if not_ foreign_amount || not_ charged_inr || not_ interbank_rate then
    Ok SKIPPED_result
  else if ctx_is_dcc fx_context then
    Ok BYPASS_result
  else
    match foreign_amount, charged_inr, interbank_rate with
    | Some fa, Some ci, Some ir => markup_core fa ci ir
    | _, _, _ => Raise TypeError
    end.

End Analyzer.

(** Line 122 of [batch_analyze_markup]: the context built from the cell
    of the [fx_is_dcc] column, or the empty dict when no such column is
    configured. *)
Definition batch_context (fx_is_dcc : option pyval)
  : option (gmap string pyval) :=
  match fx_is_dcc with
  | Some v => Some {[ "is_dcc" := v ]}
  | None => Some ∅
  end.

(** The defaults of the settings. *)
Definition default_FX_MARKUP_TOL : float := 2.5%float.
Definition default_FX_INR_TOL : float := 100%float.

End MarkupAnalyzer.


(** * fx_detector.py *)
Module FxDetector.

(** [DCC_PATTERNS], lines 32-39. *)
Definition DCC_PATTERNS : list regex :=
  [ Seq Bound (Seq (lit "DCC") Bound);
    Seq (lit "DYN") (Seq (Star CSpace)
      (Seq (lit "C") (Alt (lit "URR") (lit "URRENCY"))));
    Seq (lit "INR") (Seq (Star CSpace)
      (Seq (lit "@") (Seq (Star CSpace) (lit "POS"))));
    Seq (lit "CURRENCY") (Seq (Plus CSpace) (lit "CONVERSION"));
    Seq (lit "CONV") (Seq (Opt (lit "ERSION"))
      (Seq (Plus CSpace) (lit "RATE")));
    Seq (lit "MERCHANT") (Seq (Plus CSpace) (lit "CONVERSION")) ].

Definition DCC_REGEX : regex := alternation DCC_PATTERNS.

(** [CCY_HINTS], in insertion order, which is the order the loop of
    [_find_currency_in_text] visits them. *)
Definition CCY_HINTS : list (string * string) :=
  [ ("USD", "USD"); (" US$", "USD"); ("$", "USD");
    ("EUR", "EUR"); ("€", "EUR");
    ("GBP", "GBP"); ("£", "GBP");
    ("AED", "AED");
    ("AUD", "AUD");
    ("SGD", "SGD");
    ("CAD", "CAD");
    ("JPY", "JPY"); ("¥", "JPY") ].

Definition COUNTRY_TO_CCY : gmap string string :=
  list_to_map
    [ ("US", "USD"); ("GB", "GBP"); ("AE", "AED"); ("AU", "AUD");
      ("SG", "SGD"); ("CA", "CAD"); ("JP", "JPY"); ("DE", "EUR");
      ("FR", "EUR"); ("NL", "EUR") ].

Record FXContext : Type := {
  is_foreign : bool;
  is_dcc : bool;
  currency : option string;
  fx_source : option string;
  confidence : float;
  notes : option string;
}.

(** A [datetime]: its wall-clock seconds and its [tzinfo], if any. *)
Record datetime : Type := {
  wall_seconds : Z;
  tzinfo : option string;
}.

Fixpoint find_hint (hints : list (string * string)) (text : string)
  : option string :=
  match hints with
  | [] => None
  | (hint, ccy) :: rest =>
      if contains (lower hint) (lower text) then Some ccy
      else find_hint rest text
  end.

Definition _find_currency_in_text (text : string) : option string :=
  if String.eqb text "" then None else find_hint CCY_HINTS text.

Definition _infer_from_country (iso_country : option string) : option string :=
  match iso_country with
  | None => None
  | Some c => if String.eqb c "" then None else COUNTRY_TO_CCY !! upper c
  end.

Definition fx_confidence (has_receipt has_country_hint : bool)
    (abs_error_inr : option float) : float :=
  let score := 0%float in
  let score := if has_receipt then (score + 0.5)%float else score in
  let score := if has_country_hint then (score + 0.3)%float else score in
  let score :=
    match abs_error_inr with
    | Some err =>
        if (err <=? 50)%float then (score + 0.2)%float
        else if (err <=? 100)%float then (score + 0.1)%float
        else score
    | None => score
    end in
  min_ 1%float (round2 score).

Section Detector.

(** [TZ] and [FX_INR_TOL], read from the settings on lines 28-29. The
    functions below mention [TZ] only. *)
Variable TZ : string.
Variable FX_INR_TOL : Z.

Definition detect_fx_context
    (narration : option string)
    (merchant_country_iso2 stated_currency receipt_currency : option string)
    (expected_inr charged_inr : option float)
    (txn_ts : option datetime) : FXContext :=
  let txn_ts :=
    match txn_ts with
    | Some t =>
        match tzinfo t with
        | None => Some {| wall_seconds := wall_seconds t; tzinfo := Some TZ |}
        | Some _ => Some t
        end
    | None => None
    end in
  let is_dcc :=
    match narration with
    | Some n => negb (String.eqb n "") && search DCC_REGEX n
    | None => false
    end in
  if is_dcc then
    {| is_foreign := false; is_dcc := true; currency := Some "INR";
       fx_source := Some "dcc"; confidence := 1%float;
       notes := Some "DCC detected in narration; markup analysis bypassed." |}
  else if str_truthy stated_currency
          && negb (String.eqb (upper (default "" stated_currency)) "INR") then
    {| is_foreign := true; is_dcc := false;
       currency := Some (upper (default "" stated_currency));
       fx_source := Some "statement"; confidence := 0.9%float;
       notes := Some "Foreign currency explicitly present in statement." |}
  else if str_truthy receipt_currency
          && negb (String.eqb (upper (default "" receipt_currency)) "INR") then
    let abs_err :=
      match expected_inr, charged_inr with
      | Some e, Some c => Some (PrimFloat.abs (c - e))%float
      | _, _ => None
      end in
    let conf := fx_confidence true (str_truthy merchant_country_iso2) abs_err in
    {| is_foreign := true; is_dcc := false;
       currency := Some (upper (default "" receipt_currency));
       fx_source := Some "receipt"; confidence := conf;
       notes := Some "Currency taken from attached receipt." |}
  else
    let hinted_ccy := _find_currency_in_text (default "" narration) in
    if str_truthy hinted_ccy
       && negb (String.eqb (default "" hinted_ccy) "INR") then
      {| is_foreign := true; is_dcc := false; currency := hinted_ccy;
         fx_source := Some "inferred";
         confidence :=
           fx_confidence false (str_truthy merchant_country_iso2) None;
         notes := Some "Currency inferred from narration hints." |}
    else
      let inferred_ccy := _infer_from_country merchant_country_iso2 in
      if str_truthy inferred_ccy
         && negb (String.eqb (default "" inferred_ccy) "INR") then
        {| is_foreign := true; is_dcc := false; currency := inferred_ccy;
           fx_source := Some "inferred";
           confidence := fx_confidence false true None;
           notes := Some "Currency inferred from merchant country." |}
      else
        {| is_foreign := false; is_dcc := false; currency := Some "INR";
           fx_source := None;
           confidence :=
             if str_truthy narration
                && contains "INR" (upper (default "" narration))
             then 0.8%float else 0.5%float;
           notes := Some "No reliable foreign markers; assumed INR." |}.

End Detector.

End FxDetector.

(** * cc_monitor.py *)
Module CcMonitor.

(** A [datetime.date] is modelled by its proleptic Gregorian ordinal
    ([date.toordinal()]): day 1 is Monday 0001-01-01 and the last date,
    9999-12-31, is day [MAXORDINAL]. *)
Definition MAXORDINAL : Z := 3652059.

(** [d + timedelta(days=n)]: out of the range of [date] it raises. *)
Definition date_add (d n : Z) : res Z :=
  if (1 <=? d + n) && (d + n <=? MAXORDINAL) then Ok (d + n)
  else Raise OverflowError.

(** [d.weekday()]: Monday is 0 and Sunday is 6. *)
Definition weekday (d : Z) : Z := (d - 1) mod 7.

Record CCTxn : Type := {
  txn_id : string;
  txn_date : Z;
  vendor : string;
  card_last4 : string;
  cardholder : string;
  amount_inr : float;
  has_receipt : bool;
  invoice_later : bool;
  entered_at : option Z;       (* [None] is NaT: not entered *)
  entered_by : option string;
}.

(** A row of the frame returned by [classify_cc_rows]. *)
Record CCAnnotated : Type := {
  txn : CCTxn;
  sla_due_date : Z;
  invoice_later_age_days : Z;
  is_overdue : bool;
  stage : option string;
  flag : option string;
}.

Section Monitor.

(** [HOLIDAYS], a set of dates, and the three SLA settings. *)
Variable HOLIDAYS : gset Z.
Variable SLA_WDAYS : Z.
Variable INVOICE_LATER_DAYS : Z.
Variable FINANCE_ESCALATION_DAYS : Z.

Definition is_working_day (d : Z) : bool :=
  (weekday d <? 5) && negb (bool_decide (d ∈ HOLIDAYS)).

(** The loop of [add_working_days]; [None] means that [fuel] iterations
    did not finish it. *)
Fixpoint add_working_days_loop (fuel : nat) (days cur added : Z)
  : option (res Z) :=
  if added <? days then
    match fuel with
    | O => None
    | S fuel' =>
        match date_add cur 1 with
        | Ok cur' =>
            add_working_days_loop fuel' days cur'
              (if is_working_day cur' then added + 1 else added)
        | Raise e => Some (Raise e)
        end
    end
  else Some (Ok cur).

(** Iterations that always suffice: three per working day asked for and
    per holiday, and three more. *)
Definition add_working_days_fuel (days : Z) : nat :=
  Z.to_nat (3 * (Z.max 0 days + Z.of_nat (size HOLIDAYS)) + 3).

Definition add_working_days (start days : Z) : option (res Z) :=
  add_working_days_loop (add_working_days_fuel days) days start 0.

(** The loop of [working_days_between], which runs [end_ - start] times. *)
Fixpoint working_days_between_loop (n : nat) (cur cnt : Z) : res Z :=
  match n with
  | O => Ok cnt
  | S n' =>
      cur' ← date_add cur 1;
      working_days_between_loop n' cur'
        (if is_working_day cur' then cnt + 1 else cnt)
  end.

Definition working_days_between (start end_ : Z) : res Z :=
  if end_ <? start then Ok 0
  else working_days_between_loop (Z.to_nat (end_ - start)) start 0.

(** [stage_row], lines 160-171. *)
Definition stage_row (t : CCTxn) (age : Z) (overdue : bool) (today : Z)
  : res (option string) :=
  if invoice_later t && (FINANCE_ESCALATION_DAYS <=? age) then Ok (Some "D30")
  else if invoice_later t && (INVOICE_LATER_DAYS <=? age) then Ok (Some "D14")
  else if overdue then
    wd ← working_days_between (txn_date t) today;
    if SLA_WDAYS <=? wd then Ok (Some "D3") else Ok None
  else Ok None.

(** The three assignments to the [flag] column, in order: a later one
    overwrites an earlier one. *)
Definition flag_of (t : CCTxn) (stage : option string) : option string :=
  let late := bool_decide (stage = Some "D3") in
  let aged := bool_decide (stage = Some "D14") || bool_decide (stage = Some "D30") in
  let flag := None in
  let flag := if late then Some "LateEntry" else flag in
  let flag := if aged && invoice_later t then Some "InvoiceLater" else flag in
  let flag := if aged && negb (has_receipt t) then Some "NoReceipt" else flag in
  flag.

(** One row of [classify_cc_rows]. *)
Definition classify_cc_row (today : Z) (t : CCTxn) : option (res CCAnnotated) :=
  due ← add_working_days (txn_date t) SLA_WDAYS;
  Some (
    sla_due_date ← due;
    let is_overdue :=
      bool_decide (entered_at t = None) && (sla_due_date <? today) in
    let age := if invoice_later t then today - txn_date t else 0 in
    stage ← stage_row t age is_overdue today;
    Ok {| txn := t; sla_due_date := sla_due_date;
          invoice_later_age_days := age; is_overdue := is_overdue;
          stage := stage; flag := flag_of t stage |}).

(** [classify_cc_rows]: every row is classified; an exception on any row
    aborts the call. *)
Fixpoint classify_cc_rows (rows : list CCTxn) (today : Z)
  : option (res (list CCAnnotated)) :=
  match rows with
  | [] => Some (Ok [])
  | t :: rest =>
      r ← classify_cc_row today t;
      rs ← classify_cc_rows rest today;
      Some (a ← r; l ← rs; Ok (a :: l))
  end.

End Monitor.

End CcMonitor.
(** * cc_monitor.py: the reminder log and the run *)
Module CcMonitorRun.
Import CcMonitor.

(** A row of the table [reminder_log]: run, audience, stage and
    transaction. The table is unique on the four, so its content is a
    set. *)
Definition reminder : Type := string * string * string * string.
Definition ReminderLog : Type := gset reminder.

(** [already_sent], lines 117-123. *)
Definition already_sent (log : ReminderLog)
    (run_id audience stage txn_id : string) : bool :=
  bool_decide ((run_id, audience, stage, txn_id) ∈ log).

(** [mark_sent], lines 125-130: [INSERT OR IGNORE]. *)
Definition mark_sent (log : ReminderLog)
    (run_id audience stage txn_id : string) : ReminderLog :=
  {[ (run_id, audience, stage, txn_id) ]} ∪ log.

(** What a run hands to the notifier and leaves in the log. *)
Record Run : Type := {
  annotated : list CCAnnotated;
  sent_user : list CCAnnotated;
  sent_ap : list CCAnnotated;
  sent_finance : list CCAnnotated;
  log_after : ReminderLog;
}.

(** [annotated[annotated['stage'] == st]]. *)
Definition at_stage (st : string) (rows : list CCAnnotated)
  : list CCAnnotated :=
  filter (fun r => bool_decide (stage r = Some st)) rows.

(** [filter_unsent], lines 243-250. *)
Definition filter_unsent (log : ReminderLog) (run_id : string)
    (rows : list CCAnnotated) (audience stage : string) : list CCAnnotated :=
  filter (fun r => negb (already_sent log run_id audience stage
                           (txn_id (txn r)))) rows.

(** The loops of lines 263-268. *)
Definition mark_all (log : ReminderLog) (run_id audience stage : string)
    (rows : list CCAnnotated) : ReminderLog :=
  foldl (fun lg r => mark_sent lg run_id audience stage (txn_id (txn r)))
    log rows.

Section Monitor.
Variable HOLIDAYS : gset Z.
Variable SLA_WDAYS : Z.
Variable INVOICE_LATER_DAYS : Z.
Variable FINANCE_ESCALATION_DAYS : Z.
(** [today_dt.strftime("%Y-%m-%d")] for the date of [today_dt]. *)
Variable run_id_of : Z -> string.

(** [run_cc_monitor], lines 226-271, on the log it finds. *)
Definition run_cc_monitor (cc_df : list CCTxn) (today : Z) (log : ReminderLog)
  : option (res Run) :=
  let run_id := run_id_of today in
  classified ← classify_cc_rows HOLIDAYS SLA_WDAYS INVOICE_LATER_DAYS
                  FINANCE_ESCALATION_DAYS cc_df today;
  Some (
    annotated ← classified;
    let d3_user := at_stage "D3" annotated in
    let d14_ap := at_stage "D14" annotated in
    let d30_fin := at_stage "D30" annotated in
    let d3_user_unsent := filter_unsent log run_id d3_user "user" "D3" in
    let d14_ap_unsent := filter_unsent log run_id d14_ap "ap" "D14" in
    let d30_fin_unsent := filter_unsent log run_id d30_fin "finance" "D30" in
    let log := mark_all log run_id "user" "D3" d3_user_unsent in
    let log := mark_all log run_id "ap" "D14" d14_ap_unsent in
    let log := mark_all log run_id "finance" "D30" d30_fin_unsent in
    Ok {| annotated := annotated; sent_user := d3_user_unsent;
          sent_ap := d14_ap_unsent; sent_finance := d30_fin_unsent;
          log_after := log |}).

End Monitor.

End CcMonitorRun.

(** * The fragment of pandas used by the Stripe checker *)
Module Pandas.

(** A cell of a frame. [CNa] stands for [None], [NaN] in an object column
    and [NaT]; a numeric NaN is [CNum nan]. A timestamp is its wall-clock
    time in seconds in the time zone of the process. *)
Inductive cell : Type :=
| CNa
| CStr (s : string)
| CNum (x : float)
| CTime (wall : Z)
| CDate (d : Z)
| CBool (b : bool).

(** A row maps column names to cells; a frame lists its columns in order
    and its rows in index order. *)
Record frame : Type := {
  columns : list string;
  rows : list (gmap string cell);
}.

Definition get (r : gmap string cell) (c : string) : cell :=
  default CNa (r !! c).

Definition has_col (cols : list string) (c : string) : bool :=
  existsb (String.eqb c) cols.

(** [pd.isna] and [pd.notna] on a scalar. *)
Definition isna (c : cell) : bool :=
  match c with
  | CNa => true
  | CNum x => PrimFloat.is_nan x
  | _ => false
  end.
Definition notna (c : cell) : bool := negb (isna c).

(** The float held by a cell of a numeric column; missing is NaN. *)
Definition num (c : cell) : float :=
  match c with
  | CNum x => x
  | _ => PrimFloat.nan
  end.

(** Equality of join keys and of [isin]: missing values match each other. *)
Definition key_eqb (a b : cell) : bool :=
  match a, b with
  | CStr s, CStr t => String.eqb s t
  | CNum x, CNum y => (x =? y)%float || (PrimFloat.is_nan x && PrimFloat.is_nan y)
  | CTime s, CTime t => s =? t
  | CDate s, CDate t => s =? t
  | CBool s, CBool t => Bool.eqb s t
  | _, _ => isna a && isna b
  end.

(** [df[c]]: the column as a list, or [KeyError]. *)
Definition getitem (df : frame) (c : string) : res (list cell) :=
  if has_col (columns df) c then Ok (map (fun r => get r c) (rows df))
  else Raise (KeyError c).

(** [df[[c1, ..., cn]]]: [KeyError] on the first missing label. *)
Definition select (df : frame) (cols : list string) : res frame :=
  match filter (fun c => negb (has_col (columns df) c)) cols with
  | missing :: _ => Raise (KeyError missing)
  | [] =>
      Ok {| columns := cols;
            rows := map (fun r =>
                      list_to_map (map (fun c => (c, get r c)) cols))
                    (rows df) |}
  end.

(** [df[mask]] for a boolean column computed row by row. *)
Definition where_ (df : frame) (keep : gmap string cell -> bool) : frame :=
  {| columns := columns df; rows := filter keep (rows df) |}.

(** [df[c] = f(row)]: set or add the column [c], row by row. *)
Definition assign (df : frame) (c : string) (f : gmap string cell -> cell)
  : frame :=
  {| columns := if has_col (columns df) c then columns df
                else columns df ++ [c];
     rows := map (fun r => <[c := f r]> r) (rows df) |}.

(** [df.rename(columns={old: new})]; a missing [old] is ignored. *)
Definition rename (df : frame) (old new : string) : frame :=
  {| columns := map (fun c => if String.eqb c old then new else c) (columns df);
     rows := map (fun r =>
               match r !! old with
               | Some v => <[new := v]> (delete old r)
               | None => r
               end) (rows df) |}.

(** ** Left merge on one key with suffixes *)

(** A column other than the key that both sides have gets a suffix. *)
Definition overlaps (lcols rcols : list string) (key c : string) : bool :=
  negb (String.eqb c key) && has_col lcols c && has_col rcols c.

Definition suffixed (lcols rcols : list string) (key suffix c : string)
  : string :=
  if overlaps lcols rcols key c then (c ++ suffix)%string else c.

Definition right_columns (rcols : list string) (key : string) : list string :=
  filter (fun c => negb (String.eqb c key)) rcols.

Definition merge_columns (lcols rcols : list string) (key sl sr : string)
  : list string :=
  map (suffixed lcols rcols key sl) lcols
  ++ map (suffixed lcols rcols key sr) (right_columns rcols key).

(** The merged row of a left row and its partner; without a partner the
    right-hand columns are missing. *)
Definition merge_row (lcols rcols : list string) (key sl sr : string)
    (l : gmap string cell) (r : option (gmap string cell))
  : gmap string cell :=
  list_to_map
    (map (fun c => (suffixed lcols rcols key sl c, get l c)) lcols
     ++ map (fun c => (suffixed lcols rcols key sr c,
                       from_option (fun row => get row c) CNa r))
            (right_columns rcols key)).

(** The rows of the right frame that join a left row. *)
Definition partners (right : frame) (key : string) (l : gmap string cell)
  : list (gmap string cell) :=
  filter (fun r => key_eqb (get l key) (get r key)) (rows right).

(** The rows a left row contributes: one per partner, in the order of the
    right frame, or a single row padded with missing values. *)
Definition joined_rows (left right : frame) (key sl sr : string)
    (l : gmap string cell) : list (gmap string cell) :=
  match partners right key l with
  | [] => [merge_row (columns left) (columns right) key sl sr l None]
  | ps => map (fun r => merge_row (columns left) (columns right) key sl sr l
                          (Some r)) ps
  end.

(** [left.merge(right, on=key, how='left', suffixes=(sl, sr))]. *)
Definition merge_left (left right : frame) (key sl sr : string) : res frame :=
  if negb (has_col (columns left) key) then Raise (KeyError key)
  else if negb (has_col (columns right) key) then Raise (KeyError key)
  else
    Ok {| columns := merge_columns (columns left) (columns right) key sl sr;
          rows := flat_map (joined_rows left right key sl sr) (rows left) |}.

(** [pd.concat([a, b], ignore_index=True, sort=False)]: the columns of [a],
    then those only [b] has; the rows of [a], then those of [b]. *)
Definition concat (a b : frame) : frame :=
  {| columns := columns a
                ++ filter (fun c => negb (has_col (columns a) c)) (columns b);
     rows := rows a ++ rows b |}.

End Pandas.

(** * stripe_integrity_checker.py

    The frames are those the [_norm_] functions return: amounts are floats
    (NaN when not numeric) and timestamps are in the process time zone
    (NaT when missing). *)
Module StripeIntegrityChecker.
Import Pandas.

(** A row of [flags]. *)
Record Flag : Type := {
  severity : string;
  flag : string;
  charge_id : cell;
  invoice_id : cell;
  reason : string;
  fix_suggestion : string;
}.

(** [ts.date()]: the day of a timestamp. *)
Definition dt_date (c : cell) : cell :=
  match c with
  | CTime wall => CDate (wall / 86400)
  | _ => CNa
  end.

Section Checker.

(** [AMT_TOL] and [DATE_WIN_DAYS], read once from the settings. *)
Variable AMT_TOL : float.
Variable DATE_WIN_DAYS : Z.
(** How an f-string renders a cell, a float and an integer. *)
Variable fmt_cell : cell -> string.
Variable fmt : float -> string.
Variable fmt_int : Z -> string.

Definition _primary_match (stripe_charges rms : frame) : res frame :=
  let left := rename stripe_charges "invoice_id" "invoice_no" in
  m ← merge_left left rms "invoice_no" "_st" "_r";
  _ ← getitem m "rms_id";
  Ok (assign m "match_type"
        (fun r => if notna (get r "rms_id") then CStr "primary" else CNa)).

(** Line 124: the amounts differ by at most the tolerance. *)
Definition amt_match (r : gmap string cell) : bool :=
  (PrimFloat.abs (num (get r "amount") - num (get r "amount_inr"))
   <=? AMT_TOL)%float.

(** [_within_window], lines 126-132: any failure counts as outside. *)
Definition _within_window (r : gmap string cell) : bool :=
  match get r "created_date", get r "posted_date" with
  | CDate d1, CDate d2 => Z.abs (d1 - d2) <=? DATE_WIN_DAYS
  | _, _ => false
  end.

Definition match_ok (r : gmap string cell) : bool :=
  amt_match r && _within_window r.

Definition is_true (c : cell) : bool :=
  match c with
  | CBool b => b
  | _ => false
  end.

Definition _fallback_match (stripe_charges rms : frame) : res frame :=
  created ← getitem stripe_charges "created";
  let sc := assign stripe_charges "created_date"
              (fun r => dt_date (get r "created")) in
  let rm := assign rms "posted_date"
              (fun r => if has_col (columns rms) "posted_at"
                        then dt_date (get r "posted_at") else CNa) in
  m ← merge_left sc rm "email" "_st" "_r";
  _ ← getitem m "amount";
  _ ← getitem m "amount_inr";
  let m := assign m "amt_match" (fun r => CBool (amt_match r)) in
  let m := assign m "date_match" (fun r => CBool (_within_window r)) in
  let m := assign m "match_ok"
             (fun r => CBool (is_true (get r "amt_match")
                              && is_true (get r "date_match"))) in
  _ ← getitem m "match_type";
  let m := assign m "match_type"
             (fun r => if is_true (get r "match_ok")
                          && isna (get r "match_type")
                       then CStr "fallback" else get r "match_type") in
  Ok (where_ m (fun r => is_true (get r "match_ok"))).

(** Lines 146-156 of [build_matches_and_flags]: the table [matches]. *)
Definition build_matches (charges rms : frame) : res frame :=
  m_primary ← _primary_match charges rms;
  unmatched ← select (where_ m_primary (fun r => isna (get r "match_type")))
                ["charge_id"; "email"; "amount"; "created"; "invoice_no"];
  _ ← getitem charges "charge_id";
  let wanted := map (fun r => get r "charge_id") (rows unmatched) in
  let rest := where_ charges
                (fun r => existsb (key_eqb (get r "charge_id")) wanted) in
  m_fallback ← _fallback_match rest rms;
  Ok (concat
        (where_ m_primary
           (fun r => key_eqb (get r "match_type") (CStr "primary")))
        (assign m_fallback "match_type" (fun _ => CStr "fallback"))).

(** Line 218. *)
Definition amt_ok (r : gmap string cell) : bool :=
  notna (get r "amount") && notna (get r "amount_inr")
  && (PrimFloat.abs (num (get r "amount") - num (get r "amount_inr"))
      <=? AMT_TOL)%float.

Definition amount_mismatch_flag (r : gmap string cell) : Flag :=
  {| severity := "P1"; flag := "AmountMismatch";
     charge_id := get r "charge_id"; invoice_id := get r "invoice_no";
     reason := "Stripe " ++ fmt_cell (get r "amount") ++ " vs RMS "
               ++ fmt_cell (get r "amount_inr") ++ " exceeds tolerance ₹"
               ++ fmt AMT_TOL;
     fix_suggestion := "Verify currency & rounding; correct RMS amount" |}.

(** Lines 229-244: the drift in days when both timestamps are present. *)
Definition date_drift (r : gmap string cell) : option Z :=
  match r !! "created", r !! "posted_at" with
  | Some (CTime created), Some (CTime posted) =>
      Some (Z.abs (created / 86400 - posted / 86400))
  | _, _ => None
  end.

Definition date_drift_flag (r : gmap string cell) (drift : Z) : Flag :=
  {| severity := "P2"; flag := "DateDrift";
     charge_id := get r "charge_id"; invoice_id := get r "invoice_no";
     reason := "Date drift " ++ fmt_int drift ++ "d exceeds ±"
               ++ fmt_int DATE_WIN_DAYS ++ "d window";
     fix_suggestion := "Align RMS posting date with payment date" |}.

(** The flags one row of [matches] raises, lines 217-244. *)
Definition row_flags (r : gmap string cell) : list Flag :=
  (if amt_ok r then [] else [amount_mismatch_flag r])
  ++ match date_drift r with
     | Some drift =>
         if DATE_WIN_DAYS <? drift then [date_drift_flag r drift]
         else []
     | None => []
     end.

(** Lines 215-244: the flags of every row of [matches], in order. *)
Definition mismatch_flags (matches : frame) : list Flag :=
  flat_map row_flags (rows matches).

End Checker.

(** The columns the sources document for the two frames (lines 71 and 89). *)
Definition STRIPE_COLUMNS : list string :=
  ["charge_id"; "payment_intent"; "invoice_id"; "email"; "amount";
   "currency"; "created"; "status"].
Definition RMS_COLUMNS : list string :=
  ["rms_id"; "invoice_no"; "email"; "amount_inr"; "currency"; "posted_at";
   "stripe_charge_id"; "stripe_invoice_id"].

End StripeIntegrityChecker.
(** * More of the Python run time: [str.split], [str.strip], [int] *)

Set Warnings "-register-all".

Module PyStr.

(** [s.split(sep)] for a separator of one character: the pieces between
    the separators, of which there is always at least one. *)
Fixpoint split (sep : ascii) (s : string) : list string :=
  match s with
  | EmptyString => [EmptyString]
  | String c rest =>
      if Ascii.eqb c sep then EmptyString :: split sep rest
      else match split sep rest with
           | piece :: pieces => String c piece :: pieces
           | [] => [String c EmptyString]
           end
  end.

(** [s.lstrip()], [s.rstrip()] and [s.strip()]: white space is what
    [str.isspace] accepts on the ASCII range, the characters of [\s]. *)
Fixpoint lstrip (s : string) : string :=
  match s with
  | EmptyString => EmptyString
  | String c rest => if is_space c then lstrip rest else s
  end.

Fixpoint rstrip (s : string) : string :=
  match s with
  | EmptyString => EmptyString
  | String c rest =>
      match rstrip rest with
      | EmptyString => if is_space c then EmptyString else String c EmptyString
      | kept => String c kept
      end
  end.

Definition strip (s : string) : string := rstrip (lstrip s).

(** [int(x)] for a float: truncation towards zero; NaN and the
    infinities have no integer. *)
Definition int_of_float (x : float) : option Z :=
  match Prim2SF x with
  | S754_zero _ => Some 0
  | S754_finite s m e =>
      let n := match e with
               | Zneg p => Zpos m / 2 ^ Zpos p
               | _ => Zpos m * 2 ^ e
               end in
      Some (if s then - n else n)
  | _ => None
  end.

End PyStr.

(** * production_config.py *)
Module ProductionConfig.
Import PyStr.

(** The values a settings dict holds. A dict lists its entries in
    insertion order. *)
Inductive value : Type :=
| VNone
| VBool (b : bool)
| VInt (n : Z)
| VFloat (x : float)
| VStr (s : string)
| VList (items : list value)
| VDict (entries : list (string * value)).

(** What importing a module, or evaluating a setting, can raise. *)
Inductive failure : Type :=
| ImportError
| RuntimeError (message : string)
| ValueError
| TypeError
| AttributeError
| KeyError (key : string)
| OverflowError.

Inductive import (A : Type) : Type :=
| Loaded (a : A)
| Failed (e : failure).
Arguments Loaded {A} a.
Arguments Failed {A} e.

#[global] Instance import_ret : MRet import := fun A a => Loaded a.
#[global] Instance import_bind : MBind import := fun A B k c =>
  match c with
  | Loaded a => k a
  | Failed e => Failed e
  end.

(** [_split_csv], line 32. *)
Definition _split_csv (val : option string) : list string :=
  map strip
    (filter (fun x => negb (String.eqb (strip x) ""))
       (split "," (default "" val))).

Definition of_str (v : option string) : value :=
  match v with
  | Some s => VStr s
  | None => VNone
  end.

Section Environment.

(** [os.environ], once [load_dotenv] has run, and the parsers [float(s)]
    and [int(s)] of a string, which return nothing where Python raises
    [ValueError]. *)
Variable environ : gmap string string.
Variable float_ : string -> option float.
Variable int_ : string -> option Z.

(** [_get], lines 24-28. *)
Definition _get (name : string) (default : option string) (required : bool)
  : import (option string) :=
  let val := match environ !! name with
             | Some v => Some v
             | None => default
             end in
  if required
     && match val with
        | None => true
        | Some v => String.eqb v ""
        end
  then Failed (RuntimeError ("Missing required environment variable: " ++ name))
  else Loaded val.

(** [float(x)] and [int(x)] for [x : str | None]. *)
Definition to_float (x : option string) : import value :=
  match x with
  | Some s => match float_ s with
              | Some f => Loaded (VFloat f)
              | None => Failed ValueError
              end
  | None => Failed TypeError
  end.

Definition to_int (x : option string) : import value :=
  match x with
  | Some s => match int_ s with
              | Some n => Loaded (VInt n)
              | None => Failed ValueError
              end
  | None => Failed TypeError
  end.

Definition TIMEZONE : import value :=
  timezone ← _get "APP_TIMEZONE" (Some "Africa/Lagos") false;
  Loaded (of_str timezone).

Definition PATHS : import value :=
  data_dir ← _get "APP_DATA_DIR" (Some "./data") false;
  processed_dir ← _get "APP_PROCESSED_DIR" (Some "./data/processed") false;
  reports_dir ← _get "APP_REPORTS_DIR" (Some "./reports") false;
  logs_dir ← _get "APP_LOGS_DIR" (Some "./logs") false;
  Loaded (VDict [ ("data_dir", of_str data_dir);
                  ("processed_dir", of_str processed_dir);
                  ("reports_dir", of_str reports_dir);
                  ("logs_dir", of_str logs_dir) ]).

Definition THRESHOLDS : import value :=
  fx_markup ← _get "FX_MARKUP_TOL_PCT" (Some "2.5") false ≫= to_float;
  fx_inr ← _get "FX_INR_TOL" (Some "100") false ≫= to_float;
  amount ← _get "AMOUNT_MATCH_TOL_INR" (Some "10") false ≫= to_float;
  window ← _get "DATE_WINDOW_DAYS" (Some "2") false ≫= to_int;
  late ← _get "LATE_ENTRY_WORKING_DAYS" (Some "3") false ≫= to_int;
  later ← _get "INVOICE_LATER_DAYS" (Some "14") false ≫= to_int;
  escalation ← _get "FINANCE_ESCALATION_DAYS" (Some "30") false ≫= to_int;
  Loaded (VDict [ ("fx_markup_tolerance_pct", fx_markup);
                  ("fx_inr_tolerance", fx_inr);
                  ("amount_match_tolerance_inr", amount);
                  ("date_window_days", window);
                  ("late_entry_working_days", late);
                  ("invoice_later_days", later);
                  ("finance_escalation_days", escalation) ]).

Definition csv (x : option string) : value :=
  VList (map VStr (_split_csv x)).

Definition HOLIDAYS : import value :=
  holidays ← _get "APP_HOLIDAYS" (Some "") false;
  Loaded (csv holidays).

Definition EMAIL : import value :=
  from ← _get "SMTP_FROM" (Some "noreply@yourdomain.com") false;
  ap_team ← _get "AP_TEAM" (Some "ap@yourdomain.com") false;
  finance_mgmt ← _get "FINANCE_MGMT" (Some "finance@yourdomain.com") false;
  Loaded (VDict [ ("from", of_str from); ("ap_team", csv ap_team);
                  ("finance_mgmt", csv finance_mgmt) ]).

Definition DATABASE : import value :=
  url ← _get "DATABASE_URL"
          (Some "postgresql+psycopg2://reconciliation_user:secure_production_password@db:5432/reconciliation_prod")
          false;
  Loaded (VDict [ ("url", of_str url) ]).

Definition REDIS : import value :=
  url ← _get "REDIS_URL" (Some "redis://redis:6379/0") false;
  Loaded (VDict [ ("url", of_str url) ]).

(** [x.lower() == "true"] for [x : str | None]. *)
Definition is_true_text (x : option string) : import value :=
  match x with
  | Some s => Loaded (VBool (String.eqb (lower s) "true"))
  | None => Failed AttributeError
  end.

Definition SMTP : import value :=
  host ← _get "SMTP_HOST" (Some "smtp.office365.com") false;
  port ← _get "SMTP_PORT" (Some "587") false ≫= to_int;
  user ← _get "SMTP_USER" None false;
  pass ← _get "SMTP_PASS" None false;
  use_tls ← _get "SMTP_USE_TLS" (Some "true") false ≫= is_true_text;
  Loaded (VDict [ ("host", of_str host); ("port", port);
                  ("user", of_str user); ("pass", of_str pass);
                  ("use_tls", use_tls) ]).

Definition SLACK : import value :=
  bot_token ← _get "SLACK_BOT_TOKEN" None false;
  default_channel ← _get "SLACK_DEFAULT_CHANNEL" (Some "#recon-alerts") false;
  Loaded (VDict [ ("bot_token", of_str bot_token);
                  ("default_channel", of_str default_channel) ]).

Definition STRIPE : import value :=
  api_key ← _get "STRIPE_API_KEY" None true;
  Loaded (VDict [ ("api_key", of_str api_key) ]).

Definition FX : import value :=
  provider ← _get "FX_PROVIDER" (Some "fixer") false;
  api_key ← _get "FX_API_KEY" None false;
  Loaded (VDict [ ("provider", of_str provider); ("api_key", of_str api_key) ]).

Definition RMS : import value :=
  base_url ← _get "RMS_BASE_URL" (Some "https://rms.koenig-solutions.com") false;
  username ← _get "RMS_USER" None false;
  password ← _get "RMS_PASS" None false;
  Loaded (VDict [ ("base_url", of_str base_url);
                  ("username", of_str username);
                  ("password", of_str password) ]).

(** The module, top to bottom: what [from production_config import
    SETTINGS] gives. *)
Definition SETTINGS : import value :=
  timezone ← TIMEZONE;
  paths ← PATHS;
  thresholds ← THRESHOLDS;
  holidays ← HOLIDAYS;
  email ← EMAIL;
  database ← DATABASE;
  redis ← REDIS;
  smtp ← SMTP;
  slack ← SLACK;
  stripe ← STRIPE;
  fx ← FX;
  rms ← RMS;
  Loaded (VDict [ ("timezone", timezone); ("paths", paths);
                  ("thresholds", thresholds); ("holidays", holidays);
                  ("email", email); ("database", database);
                  ("redis", redis); ("smtp", smtp); ("slack", slack);
                  ("stripe", stripe); ("fx", fx); ("rms", rms) ]).

End Environment.

(** ** Reading a settings dict *)

Fixpoint find_entry (entries : list (string * value)) (key : string)
  : option value :=
  match entries with
  | [] => None
  | (k, v) :: rest => if String.eqb k key then Some v else find_entry rest key
  end.

(** [d.get(key, default)]. *)
Definition dict_get (d : value) (key : string) (default : value)
  : import value :=
  match d with
  | VDict entries => Loaded (from_option id default (find_entry entries key))
  | _ => Failed AttributeError
  end.

(** [d[key]]. *)
Definition dict_item (d : value) (key : string) : import value :=
  match d with
  | VDict entries =>
      match find_entry entries key with
      | Some v => Loaded v
      | None => Failed (KeyError key)
      end
  | _ => Failed TypeError
  end.

(** [int(v)]. *)
Definition int_of_value (int_ : string -> option Z) (v : value) : import Z :=
  match v with
  | VInt n => Loaded n
  | VBool b => Loaded (if b then 1 else 0)
  | VFloat x =>
      match int_of_float x with
      | Some n => Loaded n
      | None => if PrimFloat.is_nan x then Failed ValueError
                else Failed OverflowError
      end
  | VStr s => match int_ s with
              | Some n => Loaded n
              | None => Failed ValueError
              end
  | _ => Failed TypeError
  end.

End ProductionConfig.

(** * The settings of cc_monitor.py, lines 26-42 *)
Module CcMonitorSettings.
Import ProductionConfig.

(** The dict of the [except] branch. *)
Definition FALLBACK_SETTINGS : value :=
  VDict [ ("timezone", VStr "Africa/Lagos");
          ("sla", VDict [ ("working_days", VInt 3);
                          ("invoice_later_days", VInt 14);
                          ("finance_escalation_days", VInt 30) ]);
          ("holidays", VList []);
          ("paths", VDict [ ("data_dir", VStr "./data");
                            ("logs_dir", VStr "./logs") ]);
          ("email", VDict [ ("from", VStr "noreply@example.com");
                            ("ap_team", VList [VStr "ap@example.com"]);
                            ("finance_mgmt", VList [VStr "finmgr@example.com"]) ]);
          ("thresholds", VDict [ ("amount_match_tolerance_inr", VInt 10) ]) ].

(** [SETTINGS] after the [try] of lines 26-36: any exception of the
    import gives the fallback. *)
Definition SETTINGS (imported : import value) : value :=
  match imported with
  | Loaded settings => settings
  | Failed _ => FALLBACK_SETTINGS
  end.

Section Sla.
Variable int_ : string -> option Z.
Variable imported : import value.

(** [int(SETTINGS.get("sla", {}).get(key, default))]. *)
Definition sla_setting (key : string) (default : Z) : import Z :=
  sla ← dict_get (SETTINGS imported) "sla" (VDict []);
  v ← dict_get sla key (VInt default);
  int_of_value int_ v.

Definition SLA_WDAYS : import Z := sla_setting "working_days" 3.
Definition INVOICE_LATER_DAYS : import Z := sla_setting "invoice_later_days" 14.
Definition FINANCE_ESCALATION_DAYS : import Z :=
  sla_setting "finance_escalation_days" 30.

End Sla.

End CcMonitorSettings.

(** * The settings of markup_analyzer.py, lines 15-26 *)
Module MarkupAnalyzerSettings.
Import ProductionConfig.

Definition FALLBACK_SETTINGS : value :=
  VDict [ ("thresholds", VDict [ ("fx_markup_tolerance_pct", VFloat 2.5);
                                 ("fx_inr_tolerance", VInt 100) ]) ].

(** [SETTINGS] after the [try] of lines 15-23: only [ImportError] gives
    the fallback, any other exception of the import leaves the module. *)
Definition SETTINGS (imported : import value) : import value :=
  match imported with
  | Failed ImportError => Loaded FALLBACK_SETTINGS
  | other => other
  end.

Definition threshold (imported : import value) (key : string)
    (default : value) : import value :=
  settings ← SETTINGS imported;
  thresholds ← dict_item settings "thresholds";
  dict_get thresholds key default.

Definition FX_MARKUP_TOL (imported : import value) : import value :=
  threshold imported "fx_markup_tolerance_pct" (VFloat 2.5).
Definition FX_INR_TOL (imported : import value) : import value :=
  threshold imported "fx_inr_tolerance" (VInt 100).

End MarkupAnalyzerSettings.

(** * Comparisons of binary64 numbers *)
Module FloatFacts.

Lemma SFcompare_antisym x y :
  SFcompare y x = option_map CompOpp (SFcompare x y).
Proof.
  destruct x as [[]|[]| |[] m1 e1], y as [[]|[]| |[] m2 e2]; cbn;
    try reflexivity;
    rewrite (Z.compare_antisym e1 e2); destruct (e1 ?= e2); cbn;
    try reflexivity;
    change (Pos.compare_cont Eq m2 m1) with (Pos.compare m2 m1);
    change (Pos.compare_cont Eq m1 m2) with (Pos.compare m1 m2);
    rewrite (Pos.compare_antisym m1 m2); destruct (m1 ?= m2)%positive;
    reflexivity.
Qed.

Lemma SFcompare_defined x y :
  x <> S754_nan -> y <> S754_nan -> exists c, SFcompare x y = Some c.
Proof.
  destruct x as [[]|[]| |[] m1 e1], y as [[]|[]| |[] m2 e2]; cbn; intros;
    try congruence; eauto.
Qed.

Lemma number_Prim2SF x : number x -> Prim2SF x <> S754_nan.
Proof.
  unfold number, PrimFloat.is_nan. rewrite FloatAxioms.eqb_spec.
  intros H E. rewrite E in H. discriminate.
Qed.

(** On numbers [x <= y] is the negation of [y < x]. *)
Lemma leb_negb_ltb x y :
  number x -> number y -> (x <=? y)%float = negb (y <? x)%float.
Proof.
  intros Hx Hy. rewrite leb_spec, ltb_spec. unfold SFleb, SFltb.
  rewrite (SFcompare_antisym (Prim2SF x) (Prim2SF y)).
  destruct (SFcompare_defined _ _ (number_Prim2SF x Hx) (number_Prim2SF y Hy))
    as [c ->].
  destruct c; reflexivity.
Qed.

Lemma number_abs x : number x -> number (PrimFloat.abs x).
Proof.
  unfold number, PrimFloat.is_nan.
  rewrite !FloatAxioms.eqb_spec, abs_spec.
  destruct (Prim2SF x) as [[]|[]| |[] m e]; cbn; try reflexivity;
    rewrite ?Z.compare_refl, ?Pos.compare_cont_refl; auto.
Qed.

Lemma leb_refl x : number x -> (x <=? x)%float = true.
Proof.
  intros Hx. rewrite leb_spec. unfold SFleb.
  pose proof (number_Prim2SF x Hx) as Hn.
  destruct (Prim2SF x) as [[]|[]| |[] m e]; cbn; try reflexivity;
    try congruence; rewrite ?Z.compare_refl, ?Pos.compare_cont_refl; reflexivity.
Qed.

End FloatFacts.

(** * The run-time model on examples *)
Module PyExamples.

(** [round(x, 2)] rounds the binary value, not the decimal literal: 2.675
    is stored below the tie and rounds down, 0.125 is an exact tie and
    goes to the even digit. *)
Example round2_below_tie : round2 2.675%float = 2.67%float.
Proof. reflexivity. Qed.

Example round2_tie_to_even : round2 0.125%float = 0.12%float.
Proof. reflexivity. Qed.

Example round2_keeps_sign_of_zero :
  round2 (-0.001)%float = PrimFloat.neg_zero.
Proof. reflexivity. Qed.

Example round2_large : round2 1e300%float = 1e300%float.
Proof. reflexivity. Qed.

Example round2_nan : PrimFloat.is_nan (round2 PrimFloat.nan) = true.
Proof. reflexivity. Qed.

(** Truthiness: both zeros are false, NaN is true. *)
Example not_negative_zero : not_ (Some PrimFloat.neg_zero) = true.
Proof. reflexivity. Qed.

Example not_nan : not_ (Some PrimFloat.nan) = false.
Proof. reflexivity. Qed.

Example truediv_by_zero : truediv 1%float 0%float = Raise ZeroDivisionError.
Proof. reflexivity. Qed.

(** [\b] needs a non-word neighbour: the underscore is a word character. *)
Example word_boundary :
  map (search (Seq Bound (Seq (lit "DCC") Bound)))
    ["POS DCC."; "dcc"; "ADCC"; "DCC_FEE"; "DCC-FEE"]
  = [true; true; false; false; true].
Proof. reflexivity. Qed.

Example spaces_between :
  map (search (Seq (lit "CONV") (Seq (Opt (lit "ERSION"))
                 (Seq (Plus CSpace) (lit "RATE")))))
    ["conv rate"; "Conversion   Rate"; "CONVRATE"; "CONVER RATE"]
  = [true; true; false; false].
Proof. reflexivity. Qed.

Example contains_is_substring :
  (contains "usd" "paypal usd 12", contains "" "", contains "usd" "us d")
  = (true, true, false).
Proof. reflexivity. Qed.

Example upper_ascii_only : upper "inr €" = "INR €".
Proof. reflexivity. Qed.

End PyExamples.
(** * Properties of the markup analyzer *)
Module MarkupAnalyzerSpec.
Import MarkupAnalyzer.

(** A numeric input that the guard on line 56 treats as missing:
    [None], or a float that compares equal to zero. *)
Definition absent_or_zero (x : option float) : Prop :=
  x = None \/ exists v, x = Some v /\ (v =? 0)%float = true.

(** A context whose [is_dcc] entry is [True]. *)
Definition has_is_dcc (fx_context : option (gmap string pyval)) : Prop :=
  exists d, fx_context = Some d /\ d !! "is_dcc" = Some (PBool true).

(** A rendering of floats for running examples; the digits Python prints
    are not modelled. *)
Definition fmt_opaque (x : float) : string := "<float>".

(** The context of a row whose [fx_is_dcc] cell is [True]. *)
Definition dcc_context : option (gmap string pyval) :=
  batch_context (Some (PBool true)).

Lemma not_spec (x : option float) : not_ x = true <-> absent_or_zero x.
Proof.
  unfold not_, absent_or_zero, float_truthy. destruct x as [v|].
  - rewrite negb_involutive. split.
    + intros H. right. exists v. auto.
    + intros [H|(w & Hw & Hz)]; [discriminate|]. now inversion Hw; subst.
  - split; auto.
Qed.

Lemma has_is_dcc_ctx fx_context : has_is_dcc fx_context -> ctx_is_dcc fx_context = true.
Proof.
  intros (d & -> & Hd). unfold ctx_is_dcc. rewrite Hd. simpl.
  rewrite andb_true_r. apply negb_true_iff, Nat.eqb_neq.
  intros Hsz. apply map_size_empty_inv in Hsz. subst d.
  rewrite lookup_empty in Hd. discriminate.
Qed.

Lemma not_false_spec (x : option float) : not_ x = false <-> ~ absent_or_zero x.
Proof. rewrite <- not_spec. destruct (not_ x); intuition discriminate. Qed.

(** Turn an equation on [not_ x] into the matching fact on [x]. *)
Ltac classify_guard H :=
  first [apply not_spec in H | apply not_false_spec in H].

Section Facts.
Variables (FX_MARKUP_TOL FX_INR_TOL : float) (fmt : float -> string).

Local Abbreviation analyze := (analyze_markup FX_MARKUP_TOL FX_INR_TOL fmt).
Local Abbreviation core := (markup_core FX_MARKUP_TOL FX_INR_TOL fmt).

(** The guard on line 56 decides alone whether the result is the skipped one. *)
Lemma analyze_markup_guard fa ci ir ctx :
  not_ fa || not_ ci || not_ ir = true -> analyze fa ci ir ctx = Ok SKIPPED_result.
Proof. unfold analyze_markup. now intros ->. Qed.

(** Past both guards the three numbers are floats, none zero, and the
    computation does not raise. *)
Lemma markup_core_returns fa ci ir :
  float_truthy fa = true -> float_truthy ir = true ->
  exists r, core fa ci ir = Ok r /\
    (status r = "FLAGGED" \/ status r = "OK") /\
    markup_pct r = Some (round2 (((ci / fa - ir) / ir) * 100)%float) /\
    inr_diff r = Some (round2 (ci - fa * ir)%float) /\
    (is_flagged r = true <-> status r = "FLAGGED").
Proof.
  unfold float_truthy, markup_core, truediv. intros Hfa Hir.
  apply negb_true_iff in Hfa, Hir. rewrite Hfa. cbn. rewrite Hir. cbn.
  destruct (_ || _); eexists; (split; [reflexivity|]); cbn;
    repeat split; auto; discriminate.
Qed.

Lemma analyze_markup_past_guards fa ci ir ctx :
  not_ (Some fa) || not_ (Some ci) || not_ (Some ir) = false ->
  ctx_is_dcc ctx = false ->
  analyze (Some fa) (Some ci) (Some ir) ctx = core fa ci ir.
Proof. unfold analyze_markup. now intros -> ->. Qed.

(** [analyze_markup] returns a result on every input: it never raises. *)
Lemma analyze_markup_total fa ci ir ctx :
  exists r, analyze fa ci ir ctx = Ok r.
Proof.
  unfold analyze_markup.
  destruct (not_ fa || not_ ci || not_ ir) eqn:G; [eauto|].
  destruct (ctx_is_dcc ctx); [eauto|].
  apply orb_false_iff in G as [G Hir]. apply orb_false_iff in G as [Hfa Hci].
  destruct fa as [fa|], ci as [ci|], ir as [ir|]; try discriminate.
  cbn in Hfa, Hir. apply negb_false_iff in Hfa, Hir.
  destruct (markup_core_returns fa ci ir Hfa Hir) as (r & -> & _). eauto.
Qed.

(** C1, as the code has it: for a context whose [is_dcc] is true the
    result is the skipped one when a numeric input is missing or zero and
    the bypassed one otherwise; it is never flagged or ok, and both numeric
    outputs are null. *)
Theorem analyze_markup_dcc fa ci ir ctx :
  has_is_dcc ctx ->
  exists r, analyze fa ci ir ctx = Ok r /\
    (status r = "BYPASS" <->
       ~ absent_or_zero fa /\ ~ absent_or_zero ci /\ ~ absent_or_zero ir) /\
    (status r = "SKIPPED" <->
       absent_or_zero fa \/ absent_or_zero ci \/ absent_or_zero ir) /\
    status r <> "FLAGGED" /\ status r <> "OK" /\
    is_flagged r = false /\ markup_pct r = None /\ inr_diff r = None.
Proof.
  intros Hdcc. apply has_is_dcc_ctx in Hdcc.
  unfold analyze_markup. rewrite Hdcc.
  destruct (not_ fa) eqn:Ha, (not_ ci) eqn:Hc, (not_ ir) eqn:Hr;
    classify_guard Ha; classify_guard Hc; classify_guard Hr; cbn;
    eexists; (split; [reflexivity|]); cbn;
    (split; [split; [try discriminate|]; tauto|]);
    (split; [split; [try discriminate|]; tauto|]);
    repeat split; discriminate.
Qed.


(** C6, as the code has it: the result is the skipped one exactly when one
    of the three numbers is [None] or zero (zero charged amounts and zero
    rates included), and the skipped result has null figures and no flag. *)
Theorem analyze_markup_skipped_iff fa ci ir ctx :
  exists r, analyze fa ci ir ctx = Ok r /\
    (status r = "SKIPPED" <->
       absent_or_zero fa \/ absent_or_zero ci \/ absent_or_zero ir) /\
    (status r = "SKIPPED" ->
       markup_pct r = None /\ inr_diff r = None /\ is_flagged r = false).
Proof.
  pose proof (not_spec fa) as Ha. pose proof (not_spec ci) as Hc.
  pose proof (not_spec ir) as Hr.
  destruct (not_ fa || not_ ci || not_ ir) eqn:G.
  - rewrite analyze_markup_guard by assumption. eexists. split; [reflexivity|].
    cbn. split; [|auto]. split; [|auto]. intros _.
    apply orb_true_iff in G as [G|G]; [apply orb_true_iff in G as [G|G]|]; tauto.
  - assert (Hno : ~ (absent_or_zero fa \/ absent_or_zero ci \/ absent_or_zero ir)).
    { apply orb_false_iff in G as [G G3]. apply orb_false_iff in G as [G1 G2].
      rewrite <- Ha, <- Hc, <- Hr, G1, G2, G3. intuition discriminate. }
    unfold analyze_markup. rewrite G.
    destruct (ctx_is_dcc ctx).
    + eexists. split; [reflexivity|]. cbn. split; [split|]; try discriminate; tauto.
    + apply orb_false_iff in G as [G G3]. apply orb_false_iff in G as [G1 G2].
      destruct fa as [fa|], ci as [ci|], ir as [ir|]; try discriminate.
      cbn in G1, G3. apply negb_false_iff in G1, G3.
      destruct (markup_core_returns fa ci ir G1 G3) as (r & -> & Hst & _).
      exists r. split; [reflexivity|].
      assert (status r <> "SKIPPED") by (destruct Hst as [-> | ->]; discriminate).
      split; [split|]; tauto.
Qed.

(** C9: [analyze_markup] returns on every input, and a zero charged amount
    or a zero interbank rate gives the skipped result, null figures included,
    before any division is attempted. *)
Theorem analyze_markup_zero_skipped fa ci ir ctx :
  (exists v, (ci = Some v \/ ir = Some v) /\ (v =? 0)%float = true) ->
  (forall fa' ci' ir' ctx', exists r, analyze fa' ci' ir' ctx' = Ok r) /\
  analyze fa ci ir ctx = Ok SKIPPED_result /\
  status SKIPPED_result = "SKIPPED" /\
  markup_pct SKIPPED_result = None /\ inr_diff SKIPPED_result = None /\
  is_flagged SKIPPED_result = false.
Proof.
  intros (v & Hv & Hz). split; [apply analyze_markup_total|].
  split; [|now cbn]. apply analyze_markup_guard.
  destruct Hv as [-> | ->]; cbn; unfold float_truthy; rewrite Hz; cbn;
    now rewrite ?orb_true_r.
Qed.

End Facts.

(** C1 fails as stated, on the scenario of the specification: the
    narration is classified as DCC, and with no foreign amount on the row
    the analysis is skipped, not bypassed. *)
Lemma dcc_without_foreign_amount_is_skipped :
  let ctx := FxDetector.detect_fx_context "Africa/Lagos"
               (Some "AMZN US * DYN CURR") (Some "US") None None None None None in
  FxDetector.is_dcc ctx = true /\
  has_is_dcc (batch_context (Some (PBool (FxDetector.is_dcc ctx)))) /\
  exists r,
    analyze_markup default_FX_MARKUP_TOL default_FX_INR_TOL fmt_opaque
      None (Some 8800%float) (Some 82%float)
      (batch_context (Some (PBool (FxDetector.is_dcc ctx)))) = Ok r /\
    status r = "SKIPPED" /\ status r <> "BYPASS".
Proof.
  split; [reflexivity|]. split.
  - eexists. split; reflexivity.
  - eexists. split; [reflexivity|]. split; [reflexivity|discriminate].
Qed.

Lemma analyze_markup_dcc_witness :
  exists r,
    analyze_markup default_FX_MARKUP_TOL default_FX_INR_TOL fmt_opaque
      (Some 100%float) (Some 8800%float) (Some 82%float) dcc_context = Ok r /\
    status r = "BYPASS".
Proof.
  destruct (analyze_markup_dcc default_FX_MARKUP_TOL default_FX_INR_TOL fmt_opaque
              (Some 100%float) (Some 8800%float) (Some 82%float) dcc_context)
    as (r & Hr & Hb & _).
  - eexists. split; reflexivity.
  - exists r. split; [exact Hr|]. vm_compute in Hr. now inversion Hr.
Defined.


(** The within-tolerance scenario: 150 units charged 12345 at 82. *)
Example analyze_markup_ok_scenario :
  analyze_markup default_FX_MARKUP_TOL default_FX_INR_TOL fmt_opaque
    (Some 150%float) (Some 12345%float) (Some 82%float) None
  = Ok {| is_flagged := false; markup_pct := Some 0.37%float;
          inr_diff := Some 45%float; status := "OK";
          reason := "Within thresholds" |}.
Proof. reflexivity. Qed.

(** C6 fails as stated: with all three numbers present and a non-zero
    foreign amount, a zero charged amount still gives the skipped result. *)
Lemma zero_charged_amount_is_skipped :
  exists r,
    analyze_markup default_FX_MARKUP_TOL default_FX_INR_TOL fmt_opaque
      (Some 100%float) (Some 0%float) (Some 82%float) None = Ok r /\
    status r = "SKIPPED" /\
    ~ (Some 100%float = None \/ Some 0%float = None \/ Some 82%float = None
       \/ (100 =? 0)%float = true).
Proof.
  eexists. split; [reflexivity|]. split; [reflexivity|].
  intros [H|[H|[H|H]]]; discriminate.
Qed.

Lemma analyze_markup_zero_skipped_witness :
  analyze_markup default_FX_MARKUP_TOL default_FX_INR_TOL fmt_opaque
    (Some 100%float) (Some 8800%float) (Some 0%float) None
  = Ok SKIPPED_result.
Proof.
  apply (analyze_markup_zero_skipped default_FX_MARKUP_TOL default_FX_INR_TOL
           fmt_opaque (Some 100%float) (Some 8800%float) (Some 0%float) None).
  exists 0%float. split; [right|]; reflexivity.
Defined.

End MarkupAnalyzerSpec.

(** * Properties of the FX detector *)
Module FxDetectorSpec.
Import FxDetector.

(** The context returned for a DCC narration (lines 127-134). *)
Definition DCC_context : FXContext :=
  {| is_foreign := false; is_dcc := true; currency := Some "INR";
     fx_source := Some "dcc"; confidence := 1%float;
     notes := Some "DCC detected in narration; markup analysis bypassed." |}.

(** A narration matches a DCC marker when one of the configured patterns
    is found somewhere in it. *)
Definition matches_dcc_marker (narration : string) : Prop :=
  exists p, In p DCC_PATTERNS /\ search p narration = true.

(** Searching for an alternation is searching for either branch. *)
Lemma search_from_alt r1 r2 s : forall prev,
  search_from (Alt r1 r2) prev s = search_from r1 prev s || search_from r2 prev s.
Proof.
  induction s as [|a rest IH]; intros prev; cbn.
  - now rewrite !orb_false_r.
  - rewrite IH.
    destruct (rmatch r1 prev _ _), (rmatch r2 prev _ _),
      (search_from r1 _ rest), (search_from r2 _ rest); reflexivity.
Qed.

Lemma search_alt r1 r2 s : search (Alt r1 r2) s = search r1 s || search r2 s.
Proof. apply search_from_alt. Qed.

(** The compiled [DCC_REGEX] finds a match exactly when one of the
    patterns of [DCC_PATTERNS] does. *)
Lemma search_DCC_REGEX s :
  search DCC_REGEX s = existsb (fun p => search p s) DCC_PATTERNS.
Proof.
  unfold DCC_REGEX, DCC_PATTERNS. cbn [alternation existsb].
  rewrite !search_alt. now rewrite orb_false_r.
Qed.

Lemma matches_dcc_marker_search s :
  matches_dcc_marker s <-> search DCC_REGEX s = true.
Proof.
  rewrite search_DCC_REGEX, existsb_exists. unfold matches_dcc_marker.
  split; intros (p & Hp & Hs); exists p; auto.
Qed.

(** *** Matching ignores case *)

Section CaseMap.
(** A change of case [f]: it keeps the lower-case form of a character and
    the classes [\s] and [\w]. *)
Variable f : ascii -> ascii.
Hypothesis f_lower : forall a, lower_char (f a) = lower_char a.
Hypothesis f_space : forall a, is_space (f a) = is_space a.
Hypothesis f_word : forall a, is_word (f a) = is_word a.

Fixpoint recase (s : string) : string :=
  match s with
  | EmptyString => EmptyString
  | String a rest => String (f a) (recase rest)
  end.

Lemma cls_match_recase k a : cls_match k (f a) = cls_match k a.
Proof. destruct k; cbn; [now rewrite f_lower | apply f_space]. Qed.

Lemma at_boundary_recase prev s :
  at_boundary (option_map f prev) (recase s) = at_boundary prev s.
Proof.
  unfold at_boundary. f_equal.
  - destruct prev; cbn; [apply f_word | reflexivity].
  - destruct s; cbn; [reflexivity | apply f_word].
Qed.

(** Two continuations that agree up to the change of case. *)
Definition agree (k' k : option ascii -> string -> bool) : Prop :=
  forall p t, k' (option_map f p) (recase t) = k p t.

(** Rewrite with an agreement at [p] and [t], once both sides are
    evaluated. *)
Ltac use_agree H p t :=
  let E := fresh "E" in
  pose proof (H p t) as E; cbn in E; rewrite E; clear E.

Lemma star_loop_recase c k' k : agree k' k -> agree (star_loop c k') (star_loop c k).
Proof.
  intros Hk p t. revert p. induction t as [|a rest IH]; intros p; cbn.
  - now use_agree Hk p "".
  - use_agree Hk p (String a rest). rewrite cls_match_recase.
    specialize (IH (Some a)). cbn in IH. now rewrite IH.
Qed.

Lemma rmatch_recase r : forall k' k,
  agree k' k ->
  agree (fun p t => rmatch r p t k') (fun p t => rmatch r p t k).
Proof.
  induction r as [|c|c|c| |r1 IH1 r2 IH2|r1 IH1 r2 IH2|r1 IH1];
    intros k' k Hk p t; cbn.
  - apply Hk.
  - destruct t as [|a rest]; cbn; [reflexivity|].
    rewrite cls_match_recase. now use_agree Hk (Some a) rest.
  - now apply star_loop_recase.
  - destruct t as [|a rest]; cbn; [reflexivity|].
    rewrite cls_match_recase.
    now use_agree (star_loop_recase c k' k Hk) (Some a) rest.
  - rewrite at_boundary_recase. now rewrite (Hk p t).
  - apply (IH1 _ _ (IH2 k' k Hk)).
  - now rewrite (IH1 k' k Hk p t), (IH2 k' k Hk p t).
  - now rewrite (IH1 k' k Hk p t), (Hk p t).
Qed.

Lemma search_from_recase r s : forall prev,
  search_from r (option_map f prev) (recase s) = search_from r prev s.
Proof.
  assert (Htrue : agree (fun _ _ => true) (fun _ _ => true)) by (intros p t; reflexivity).
  induction s as [|a rest IH]; intros prev; cbn.
  - now use_agree (rmatch_recase r _ _ Htrue) prev "".
  - use_agree (rmatch_recase r _ _ Htrue) prev (String a rest).
    specialize (IH (Some a)). cbn in IH. now rewrite IH.
Qed.

Lemma search_recase r s : search r (recase s) = search r s.
Proof. apply (search_from_recase r s None). Qed.

End CaseMap.

Lemma recase_upper s : recase upper_char s = upper s.
Proof. induction s as [|a rest IH]; cbn; [reflexivity | now rewrite IH]. Qed.

Lemma recase_lower s : recase lower_char s = lower s.
Proof. induction s as [|a rest IH]; cbn; [reflexivity | now rewrite IH]. Qed.

(** Every one of the 256 characters, by evaluation. *)
Ltac each_ascii a := destruct a as [[] [] [] [] [] [] [] []]; reflexivity.

(** A pattern is found in a narration exactly when it is found in its
    upper-case and in its lower-case form. *)
Lemma search_upper r s : search r (upper s) = search r s.
Proof.
  rewrite <- recase_upper. apply search_recase; intros a; each_ascii a.
Qed.

Lemma search_lower r s : search r (lower s) = search r s.
Proof.
  rewrite <- recase_lower. apply search_recase; intros a; each_ascii a.
Qed.

(** Whether a narration matches a DCC marker does not depend on its case. *)
Lemma matches_dcc_marker_upper s :
  matches_dcc_marker (upper s) <-> matches_dcc_marker s.
Proof. now rewrite !matches_dcc_marker_search, search_upper. Qed.

(** No DCC pattern matches the empty narration. *)
Lemma empty_narration_no_marker : search DCC_REGEX "" = false.
Proof. reflexivity. Qed.



(** Without the marker the same inputs are classified by the stated
    currency: the DCC rule is what overrides it. *)
Example stated_currency_without_marker :
  let ctx := detect_fx_context "Africa/Lagos" (Some "AMZN US") (Some "US")
               (Some "usd") (Some "EUR") (Some 8200%float) (Some 8800%float) None in
  is_dcc ctx = false /\ currency ctx = Some "USD" /\
  fx_source ctx = Some "statement" /\ confidence ctx = 0.9%float.
Proof. repeat split. Qed.

(** ** The receipt path and its confidence *)

(** The receipt path is taken: no DCC marker, no foreign stated currency,
    and a receipt currency other than INR. *)
Definition receipt_path (narration : option string)
    (stated_currency receipt_currency : option string) : Prop :=
  match narration with
  | Some n => negb (String.eqb n "") && search DCC_REGEX n = false
  | None => True
  end /\
  str_truthy stated_currency
    && negb (String.eqb (upper (default "" stated_currency)) "INR") = false /\
  str_truthy receipt_currency
    && negb (String.eqb (upper (default "" receipt_currency)) "INR") = true.

Definition abs_error (expected_inr charged_inr : option float) : option float :=
  match expected_inr, charged_inr with
  | Some e, Some c => Some (PrimFloat.abs (c - e))%float
  | _, _ => None
  end.

(** On the receipt path the confidence is [fx_confidence] of the receipt,
    the country hint and the absolute error. *)
Lemma receipt_path_confidence TZ narration country stated receipt expected
    charged ts :
  receipt_path narration stated receipt ->
  let ctx := detect_fx_context TZ narration country stated receipt expected
               charged ts in
  fx_source ctx = Some "receipt" /\
  confidence ctx = fx_confidence true (str_truthy country)
                     (abs_error expected charged).
Proof.
  intros (Hn & Hs & Hr) ctx. unfold ctx, detect_fx_context.
  assert (Hd : match narration with
               | Some n => negb (String.eqb n "") && search DCC_REGEX n
               | None => false
               end = false) by (destruct narration; auto).
  rewrite Hd, Hs, Hr. split; reflexivity.
Qed.

(** The score the specification describes, for a configured tolerance
    [tol]: 0.5 for the receipt, 0.3 for the country, 0.2 when the error is
    at most half of [tol], else 0.1 when it is at most [tol]; rounded and
    capped at 1. *)
Definition confidence_by_spec (tol : float) (has_receipt has_country_hint : bool)
    (abs_error_inr : option float) : float :=
  let score := 0%float in
  let score := if has_receipt then (score + 0.5)%float else score in
  let score := if has_country_hint then (score + 0.3)%float else score in
  let score :=
    match abs_error_inr with
    | Some err =>
        if (err <=? tol / 2)%float then (score + 0.2)%float
        else if (err <=? tol)%float then (score + 0.1)%float
        else score
    | None => score
    end in
  min_ 1%float (round2 score).

(** With the default tolerance of 100 the code computes the score of the
    specification. *)
Lemma fx_confidence_default_tolerance has_receipt has_country_hint abs_error_inr :
  fx_confidence has_receipt has_country_hint abs_error_inr
  = confidence_by_spec 100%float has_receipt has_country_hint abs_error_inr.
Proof. reflexivity. Qed.

(** The table of [fx_confidence] on the receipt path: the cut-offs are the
    literals 50 and 100 of lines 93 and 95. *)
Lemma fx_confidence_receipt_table has_country_hint err :
  fx_confidence true has_country_hint (Some err) =
    if (err <=? 50)%float then (if has_country_hint then 1 else 0.7)%float
    else if (err <=? 100)%float then (if has_country_hint then 0.9 else 0.6)%float
    else (if has_country_hint then 0.8 else 0.5)%float.
Proof.
  unfold fx_confidence.
  destruct has_country_hint, (err <=? 50)%float, (err <=? 100)%float; reflexivity.
Qed.

(** C7 at a configured tolerance of 200 and an error of 80: the code
    scores the receipt path 0.6, by the fixed cut-offs, where the
    specification's cut-offs (100 and 200) give 0.7. *)
Theorem receipt_confidence_fixed_cutoffs :
  let ctx := detect_fx_context "Africa/Lagos" (Some "PAYPAL *STEAM") None None
               (Some "USD") (Some 1000%float) (Some 1080%float) None in
  fx_source ctx = Some "receipt" /\
  confidence ctx = 0.6%float /\
  confidence_by_spec 200%float true false
    (abs_error (Some 1000%float) (Some 1080%float)) = 0.7%float.
Proof. repeat split. Qed.

End FxDetectorSpec.
(** * Further properties of the FX detector *)
Module FxDetectorProps.
Import FxDetector FxDetectorSpec.

(** ** The fields of a context agree with each other *)

Lemma find_hint_values hints text c :
  find_hint hints text = Some c -> In c (map snd hints).
Proof.
  induction hints as [|[hint ccy] rest IH]; cbn; [discriminate|].
  destruct (contains _ _); [intros [= <-]; now left | right; auto].
Qed.

(** No hint of [CCY_HINTS] stands for the rupee, or for no currency. *)
Lemma hinted_currency_foreign text c :
  _find_currency_in_text text = Some c -> c <> "INR" /\ c <> "".
Proof.
  unfold _find_currency_in_text. destruct (String.eqb text ""); [discriminate|].
  intros H. apply find_hint_values in H. cbn in H.
  repeat (destruct H as [<-|H]; [split; discriminate|]). destruct H.
Qed.

Lemma eqb_INR_false s : String.eqb s "INR" = false -> s <> "INR".
Proof. intros H ->. discriminate. Qed.

Lemma str_truthy_Some s :
  str_truthy s = true -> exists t, s = Some t /\ t <> "".
Proof.
  destruct s as [t|]; [|discriminate]. cbn. intros H. exists t.
  split; [reflexivity|]. intros ->. discriminate.
Qed.

(** Split a guard of the form [s and s' != "INR"]. *)
Ltac split_guard H :=
  let Ht := fresh "Ht" in
  let Hne := fresh "Hne" in
  let t := fresh "t" in
  apply andb_true_iff in H as [Ht Hne];
  apply negb_true_iff, eqb_INR_false in Hne;
  apply str_truthy_Some in Ht as (t & -> & Ht); cbn in Hne |- *.

(** Settle the conjuncts of a statement on the fields of a context that
    is known. *)
Ltac settle_fields :=
  cbn; repeat split; try discriminate; try congruence; eauto;
  try (intros [H|[H|H]]; discriminate H);
  try (intros [H1 H2]; discriminate).

(** X7: on every input the fields of the returned context agree: the
    transaction is foreign exactly when its currency is not INR, a DCC
    context is never foreign and is the one whose source is dcc, a foreign
    context has one of the sources statement, receipt and inferred, and
    the currency is never missing or empty. *)
Theorem detect_fx_context_consistent (TZ : string)
    (narration country stated receipt : option string)
    (expected charged : option float) (ts : option datetime) :
  let ctx := detect_fx_context TZ narration country stated receipt expected
               charged ts in
  (is_foreign ctx = false <-> currency ctx = Some "INR") /\
  (is_dcc ctx = true <-> fx_source ctx = Some "dcc") /\
  (is_dcc ctx = true -> is_foreign ctx = false) /\
  (is_foreign ctx = true <->
     fx_source ctx = Some "statement" \/ fx_source ctx = Some "receipt"
     \/ fx_source ctx = Some "inferred") /\
  (is_foreign ctx = false /\ is_dcc ctx = false <-> fx_source ctx = None) /\
  (exists c, currency ctx = Some c /\ c <> "").
Proof.
  intros ctx. unfold ctx, detect_fx_context.
  destruct (match narration with Some n => _ | None => false end);
    [settle_fields|].
  destruct (str_truthy stated && _) eqn:Hs.
  { split_guard Hs. settle_fields.
    exists (upper t). split; [reflexivity|].
    destruct t; [contradiction|discriminate]. }
  destruct (str_truthy receipt && _) eqn:Hr.
  { split_guard Hr. settle_fields.
    exists (upper t). split; [reflexivity|].
    destruct t; [contradiction|discriminate]. }
  destruct (str_truthy (_find_currency_in_text _) && _) eqn:Hh.
  { apply andb_true_iff in Hh as [Ht _].
    apply str_truthy_Some in Ht as (c & Hc & _).
    rewrite Hc. apply hinted_currency_foreign in Hc as [Hinr Hne].
    settle_fields. }
  destruct (str_truthy (_infer_from_country _) && _) eqn:Hc.
  { apply andb_true_iff in Hc as [Ht Hinr].
    apply negb_true_iff, eqb_INR_false in Hinr.
    apply str_truthy_Some in Ht as (c & Hc & Hne).
    rewrite Hc in Hinr |- *. cbn in Hinr. settle_fields. }
  settle_fields.
Qed.

(** ** The confidence *)

(** The values [fx_confidence] takes with a receipt. *)
Lemma fx_confidence_receipt_range has_country_hint abs_error_inr :
  let c := fx_confidence true has_country_hint abs_error_inr in
  (0.5 <=? c)%float = true /\ (c <=? 1)%float = true.
Proof.
  unfold fx_confidence.
  destruct has_country_hint, abs_error_inr as [err|];
    try destruct (err <=? 50)%float; try destruct (err <=? 100)%float;
    split; reflexivity.
Qed.

(** Take the conjuncts of a statement by source one by one: all but the
    one of the source at hand hold vacuously. *)
Ltac by_source :=
  cbn [fx_source confidence];
  (split; [|split; [|split; [|split]]]);
  first [discriminate | intros _]; try reflexivity.

(** X8: the confidence follows the source, on every input: 1 for dcc,
    0.9 for statement, from 0.5 to 1 for receipt (NaN amounts included),
    0.3 for a currency inferred with a country given and 0 for one
    inferred from the narration alone, and 0.5 or 0.8 without a source. *)
Theorem confidence_by_source (TZ : string)
    (narration country stated receipt : option string)
    (expected charged : option float) (ts : option datetime) :
  let ctx := detect_fx_context TZ narration country stated receipt expected
               charged ts in
  (fx_source ctx = Some "dcc" -> confidence ctx = 1%float) /\
  (fx_source ctx = Some "statement" -> confidence ctx = 0.9%float) /\
  (fx_source ctx = Some "receipt" ->
   (0.5 <=? confidence ctx)%float = true
   /\ (confidence ctx <=? 1)%float = true) /\
  (fx_source ctx = Some "inferred" ->
   confidence ctx = if str_truthy country then 0.3%float else 0%float) /\
  (fx_source ctx = None ->
   confidence ctx = 0.5%float \/ confidence ctx = 0.8%float).
Proof.
  intros ctx. unfold ctx, detect_fx_context.
  destruct (match narration with Some n => _ | None => false end).
  { by_source. }
  destruct (str_truthy stated && _).
  { by_source. }
  destruct (str_truthy receipt && _).
  { by_source. apply fx_confidence_receipt_range. }
  destruct (str_truthy (_find_currency_in_text _) && _).
  { by_source. destruct (str_truthy country); reflexivity. }
  destruct (str_truthy (_infer_from_country _) && _) eqn:Hc.
  { apply andb_true_iff in Hc as [Ht _].
    assert (Hcountry : str_truthy country = true).
    { destruct country as [c|]; [|discriminate]. cbn in Ht |- *.
      destruct (String.eqb c ""); [discriminate|reflexivity]. }
    by_source. now rewrite Hcountry. }
  by_source. destruct (str_truthy narration && _); auto.
Qed.

(** ** The stated currency *)

(** The context of a currency stated on the statement (lines 137-145). *)
Definition statement_context (ccy : string) : FXContext :=
  {| is_foreign := true; is_dcc := false; currency := Some ccy;
     fx_source := Some "statement"; confidence := 0.9%float;
     notes := Some "Foreign currency explicitly present in statement." |}.



(** ** The classification ignores case *)

Section CaseMap.
(** A change of case [f], as in [FxDetectorSpec], that also keeps the
    upper-case form of a character. *)
Variable f : ascii -> ascii.
Hypothesis f_lower : forall a, lower_char (f a) = lower_char a.
Hypothesis f_upper : forall a, upper_char (f a) = upper_char a.
Hypothesis f_space : forall a, is_space (f a) = is_space a.
Hypothesis f_word : forall a, is_word (f a) = is_word a.

Local Abbreviation recase := (FxDetectorSpec.recase f).

Lemma lower_recase s : lower (recase s) = lower s.
Proof. induction s as [|a rest IH]; cbn; [reflexivity|]. now rewrite f_lower, IH. Qed.

Lemma upper_recase s : upper (recase s) = upper s.
Proof. induction s as [|a rest IH]; cbn; [reflexivity|]. now rewrite f_upper, IH. Qed.

Lemma eqb_empty_recase s : String.eqb (recase s) "" = String.eqb s "".
Proof. now destruct s. Qed.

Lemma str_truthy_recase s :
  str_truthy (option_map recase s) = str_truthy s.
Proof. destruct s as [t|]; cbn; [now rewrite eqb_empty_recase|reflexivity]. Qed.

Lemma default_recase s :
  default "" (option_map recase s) = recase (default "" s).
Proof. now destruct s. Qed.

Lemma find_currency_recase text :
  _find_currency_in_text (recase text) = _find_currency_in_text text.
Proof.
  unfold _find_currency_in_text. rewrite eqb_empty_recase.
  destruct (String.eqb text ""); [reflexivity|].
  induction CCY_HINTS as [|[hint ccy] rest IH]; cbn; [reflexivity|].
  now rewrite lower_recase, IH.
Qed.

Lemma infer_from_country_recase country :
  _infer_from_country (option_map recase country) = _infer_from_country country.
Proof.
  destruct country as [c|]; cbn; [|reflexivity].
  now rewrite eqb_empty_recase, upper_recase.
Qed.

Lemma detect_fx_context_recase TZ narration country stated receipt expected
    charged ts :
  detect_fx_context TZ (option_map recase narration)
    (option_map recase country) (option_map recase stated)
    (option_map recase receipt) expected charged ts
  = detect_fx_context TZ narration country stated receipt expected charged ts.
Proof.
  unfold detect_fx_context.
  rewrite !str_truthy_recase, !default_recase, !upper_recase,
    find_currency_recase, infer_from_country_recase.
  replace (match option_map recase narration with
           | Some n => negb (String.eqb n "") && search DCC_REGEX n
           | None => false
           end)
    with (match narration with
          | Some n => negb (String.eqb n "") && search DCC_REGEX n
          | None => false
          end); [reflexivity|].
  destruct narration as [n|]; cbn; [|reflexivity].
  rewrite eqb_empty_recase. f_equal. symmetry.
  now apply search_recase.
Qed.

End CaseMap.

(** X9: the classification ignores the case of its text: with the
    narration, the country and the two currencies in upper case, or in
    lower case, the returned context is the same. *)
Theorem detect_fx_context_ignores_case (TZ : string)
    (narration country stated receipt : option string)
    (expected charged : option float) (ts : option datetime) :
  detect_fx_context TZ (option_map upper narration) (option_map upper country)
    (option_map upper stated) (option_map upper receipt) expected charged ts
  = detect_fx_context TZ narration country stated receipt expected charged ts
  /\
  detect_fx_context TZ (option_map lower narration) (option_map lower country)
    (option_map lower stated) (option_map lower receipt) expected charged ts
  = detect_fx_context TZ narration country stated receipt expected charged ts.
Proof.
  split.
  - assert (E : forall x, option_map upper x
                          = option_map (FxDetectorSpec.recase upper_char) x)
      by (intros [x|]; [unfold option_map; f_equal; symmetry;
          apply recase_upper | reflexivity]).
    rewrite !E. apply detect_fx_context_recase; intros a; each_ascii a.
  - assert (E : forall x, option_map lower x
                          = option_map (FxDetectorSpec.recase lower_char) x)
      by (intros [x|]; [unfold option_map; f_equal; symmetry;
          apply recase_lower | reflexivity]).
    rewrite !E. apply detect_fx_context_recase; intros a; each_ascii a.
Qed.

(** ** The order of the currency hints *)

Lemma prefix_empty s : String.prefix "" s = true.
Proof. now destruct s. Qed.

Lemma contains_dollar_lower text :
  contains "$" (lower text) = contains "$" text.
Proof.
  induction text as [|a rest IH]; [reflexivity|].
  cbn [lower contains]. rewrite IH. f_equal.
  cbn [String.prefix]. rewrite !prefix_empty.
  destruct a as [[] [] [] [] [] [] [] []]; reflexivity.
Qed.

(** X10: a narration with a dollar sign in it is hinted as USD, whatever
    else it names: the hints are tried in the order of [CCY_HINTS], where
    the dollar sign comes before AUD, SGD and CAD. *)
Theorem dollar_sign_hints_usd (text : string) :
  contains "$" text = true -> _find_currency_in_text text = Some "USD".
Proof.
  intros H. unfold _find_currency_in_text.
  destruct text as [|a rest]; [discriminate|]. cbn [String.eqb].
  unfold CCY_HINTS. cbn [find_hint].
  destruct (contains (lower "USD") _); [reflexivity|].
  destruct (contains (lower " US$") _); [reflexivity|].
  change (lower "$") with "$". now rewrite contains_dollar_lower, H.
Qed.

Lemma dollar_sign_hints_usd_witness :
  _find_currency_in_text "QANTAS SYDNEY AUD A$250" = Some "USD".
Proof. apply dollar_sign_hints_usd. reflexivity. Defined.

(** X11: a stated currency of INR, in any case, settles nothing: the
    context is the one returned without a stated currency, so the receipt,
    the narration and the country can still make the transaction
    foreign. *)
Theorem stated_inr_is_no_statement (TZ : string)
    (narration country receipt : option string) (stated : string)
    (expected charged : option float) (ts : option datetime) :
  upper stated = "INR" ->
  detect_fx_context TZ narration country (Some stated) receipt expected
    charged ts
  = detect_fx_context TZ narration country None receipt expected charged ts.
Proof.
  intros H. unfold detect_fx_context.
  change (default "" (Some stated)) with stated. rewrite H.
  change (String.eqb "INR" "INR") with true. cbn [negb].
  now rewrite andb_false_r.
Qed.

Lemma stated_inr_is_no_statement_witness :
  let ctx := detect_fx_context "Africa/Lagos" (Some "UBER TRIP") (Some "US")
               (Some "inr") None None None None in
  is_foreign ctx = true /\ currency ctx = Some "USD" /\
  fx_source ctx = Some "inferred".
Proof.
  cbv zeta.
  rewrite (stated_inr_is_no_statement "Africa/Lagos" (Some "UBER TRIP")
             (Some "US") None "inr" None None None eq_refl).
  repeat split.
Defined.

End FxDetectorProps.
(** * Not-a-number in binary64 arithmetic *)
Module NanFacts.

Lemma Prim2SF_nan : Prim2SF PrimFloat.nan = S754_nan.
Proof. reflexivity. Qed.

(** There is one NaN. *)
Lemma is_nan_eq x : PrimFloat.is_nan x = true -> x = PrimFloat.nan.
Proof.
  unfold PrimFloat.is_nan. rewrite FloatAxioms.eqb_spec. intros H.
  apply Prim2SF_inj. rewrite Prim2SF_nan.
  destruct (Prim2SF x) as [[]|[]| |[] m e]; cbn in H; try discriminate;
    try reflexivity;
    rewrite ?Z.compare_refl, ?Pos.compare_cont_refl in H; discriminate.
Qed.

(** Settle an equation between floats by their specifications. *)
Ltac by_spec lemma x :=
  apply Prim2SF_inj; rewrite lemma, Prim2SF_nan;
  destruct (Prim2SF x) as [[]|[]| |[] ? ?]; reflexivity.

Lemma mul_nan_l y : (PrimFloat.nan * y)%float = PrimFloat.nan.
Proof. by_spec mul_spec y. Qed.

Lemma sub_nan_l y : (PrimFloat.nan - y)%float = PrimFloat.nan.
Proof. by_spec sub_spec y. Qed.

Lemma sub_nan_r x : (x - PrimFloat.nan)%float = PrimFloat.nan.
Proof. by_spec sub_spec x. Qed.

Lemma div_nan_l y : (PrimFloat.nan / y)%float = PrimFloat.nan.
Proof. by_spec div_spec y. Qed.

Lemma div_nan_r x : (x / PrimFloat.nan)%float = PrimFloat.nan.
Proof. by_spec div_spec x. Qed.

Lemma mul_nan_r x : (x * PrimFloat.nan)%float = PrimFloat.nan.
Proof. by_spec mul_spec x. Qed.

(** Nothing is below NaN. *)
Lemma ltb_nan_r x : (x <? PrimFloat.nan)%float = false.
Proof.
  rewrite ltb_spec, Prim2SF_nan.
  destruct (Prim2SF x) as [[]|[]| |[] ? ?]; reflexivity.
Qed.

End NanFacts.

(** * Further properties of the markup analyzer *)
Module MarkupAnalyzerProps.
Import MarkupAnalyzer MarkupAnalyzerSpec NanFacts.

(** What the analysis returns when a figure is not a number. *)
Definition NAN_result : MarkupResult :=
  {| is_flagged := false; markup_pct := Some PrimFloat.nan;
     inr_diff := Some PrimFloat.nan; status := "OK";
     reason := "Within thresholds" |}.

Section Facts.
Variables (FX_MARKUP_TOL FX_INR_TOL : float) (fmt : float -> string).

Local Abbreviation analyze := (analyze_markup FX_MARKUP_TOL FX_INR_TOL fmt).
Local Abbreviation core := (markup_core FX_MARKUP_TOL FX_INR_TOL fmt).

Lemma nan_not_zero : (PrimFloat.nan =? 0)%float = false.
Proof. reflexivity. Qed.

Lemma markup_core_nan fa ci ir :
  (fa =? 0)%float = false -> (ir =? 0)%float = false ->
  PrimFloat.is_nan fa = true \/ PrimFloat.is_nan ci = true
  \/ PrimFloat.is_nan ir = true ->
  core fa ci ir = Ok NAN_result.
Proof.
  intros Hfa Hir Hnan. unfold markup_core, truediv. rewrite Hfa. cbn.
  assert (Hpct : (((ci / fa - ir) / ir) * 100)%float = PrimFloat.nan
                 /\ (ci - fa * ir)%float = PrimFloat.nan).
  { destruct Hnan as [H|[H|H]]; apply is_nan_eq in H; subst;
      rewrite ?div_nan_l, ?div_nan_r, ?mul_nan_l, ?mul_nan_r, ?sub_nan_l,
        ?sub_nan_r, ?div_nan_l, ?div_nan_r, ?mul_nan_l; split; reflexivity. }
  destruct Hpct as [Hpct Hdiff]. rewrite Hir. cbn. rewrite Hpct, Hdiff.
  change (round2 PrimFloat.nan) with PrimFloat.nan.
  change (PrimFloat.abs PrimFloat.nan) with PrimFloat.nan.
  rewrite !ltb_nan_r. reflexivity.
Qed.

(** X12: a figure that is not a number is not missing data. With the
    three inputs present, none zero and one of them NaN, and no DCC, the
    analysis returns status OK: not skipped, not flagged, and both figures
    NaN. *)
Theorem analyze_markup_nan_is_ok fa ci ir ctx :
  (fa =? 0)%float = false -> (ci =? 0)%float = false ->
  (ir =? 0)%float = false ->
  PrimFloat.is_nan fa = true \/ PrimFloat.is_nan ci = true
  \/ PrimFloat.is_nan ir = true ->
  ctx_is_dcc ctx = false ->
  analyze_markup FX_MARKUP_TOL FX_INR_TOL fmt (Some fa) (Some ci) (Some ir) ctx
  = Ok NAN_result.
Proof.
  intros Hfa Hci Hir Hnan Hctx.
  rewrite analyze_markup_past_guards; [|cbn; unfold float_truthy|exact Hctx].
  - now apply markup_core_nan.
  - now rewrite Hfa, Hci, Hir.
Qed.

(** X13: the fields of every result agree: the status is one of SKIPPED,
    BYPASS, OK and FLAGGED, [is_flagged] is true exactly at FLAGGED, and
    the two figures are null exactly at SKIPPED and BYPASS. *)
Theorem analyze_markup_result_consistent fa ci ir ctx :
  exists r, analyze_markup FX_MARKUP_TOL FX_INR_TOL fmt fa ci ir ctx = Ok r /\
    (status r = "SKIPPED" \/ status r = "BYPASS" \/ status r = "OK"
     \/ status r = "FLAGGED") /\
    (is_flagged r = true <-> status r = "FLAGGED") /\
    (markup_pct r = None <-> status r = "SKIPPED" \/ status r = "BYPASS") /\
    (inr_diff r = None <-> markup_pct r = None).
Proof.
  unfold analyze_markup.
  destruct (not_ fa || not_ ci || not_ ir) eqn:G.
  { eexists. split; [reflexivity|]. cbn. repeat split; auto; discriminate. }
  destruct (ctx_is_dcc ctx).
  { eexists. split; [reflexivity|]. cbn. repeat split; auto; discriminate. }
  apply orb_false_iff in G as [G Hir]. apply orb_false_iff in G as [Hfa Hci].
  destruct fa as [fa|], ci as [ci|], ir as [ir|]; try discriminate.
  cbn in Hfa, Hir. apply negb_false_iff in Hfa, Hir.
  destruct (markup_core_returns FX_MARKUP_TOL FX_INR_TOL fmt fa ci ir Hfa Hir)
    as (r & -> & Hst & Hpct & Hdiff & Hflag).
  exists r. split; [reflexivity|]. rewrite Hpct, Hdiff.
  repeat split; try discriminate; try tauto;
    destruct Hst as [-> | ->]; try discriminate;
    intros [H|H]; discriminate H.
Qed.

End Facts.

Lemma analyze_markup_nan_is_ok_witness :
  analyze_markup default_FX_MARKUP_TOL default_FX_INR_TOL fmt_opaque
    (Some PrimFloat.nan) (Some 8800%float) (Some 82%float) None
  = Ok NAN_result.
Proof.
  apply analyze_markup_nan_is_ok; try reflexivity. now left.
Defined.

(** ** The detector and the analyzer together *)

Section Pipeline.
Import FxDetector FxDetectorSpec.
Variables (FX_MARKUP_TOL FX_INR_TOL : float) (fmt : float -> string).
Variable TZ : string.


End Pipeline.


End MarkupAnalyzerProps.

(** * Properties of the credit-card monitor *)
Module CcMonitorSpec.
Import CcMonitor.

Section Calendar.
Variable HOLIDAYS : gset Z.

Local Abbreviation working := (is_working_day HOLIDAYS).
Local Abbreviation loop := (add_working_days_loop HOLIDAYS).

(** Holidays strictly after [cur], and how many they are. *)
Definition later_holidays (cur : Z) : gset Z :=
  filter (fun h => cur < h) HOLIDAYS.

Definition holidays_after (cur : Z) : Z := Z.of_nat (size (later_holidays cur)).

(** What a weekday adds to the potential: Friday and Saturday have the
    week-end still ahead. *)
Definition weekend_debt (w : Z) : Z :=
  if w =? 4 then 2 else if w =? 5 then 1 else 0.

(** A bound on the iterations still to run from [cur] with [added]
    working days counted. *)
Definition potential (days cur added : Z) : Z :=
  3 * (days - added + holidays_after cur) + weekend_debt (weekday cur).

Lemma holidays_after_nonneg cur : 0 <= holidays_after cur.
Proof. unfold holidays_after. lia. Qed.

Lemma holidays_after_le_size cur : holidays_after cur <= Z.of_nat (size HOLIDAYS).
Proof.
  unfold holidays_after, later_holidays. apply inj_le, subseteq_size.
  intros h Hh. apply elem_of_filter in Hh. tauto.
Qed.

Lemma holidays_after_mono cur : holidays_after (cur + 1) <= holidays_after cur.
Proof.
  unfold holidays_after, later_holidays. apply inj_le, subseteq_size.
  intros h Hh. apply elem_of_filter in Hh as [Hlt Hin].
  apply elem_of_filter. split; [lia|assumption].
Qed.

Lemma holidays_after_holiday cur :
  cur + 1 ∈ HOLIDAYS -> holidays_after (cur + 1) + 1 <= holidays_after cur.
Proof.
  intros Hin. unfold holidays_after.
  enough (size (later_holidays (cur + 1)) < size (later_holidays cur))%nat
    by lia.
  apply subset_size. unfold later_holidays. split.
  - intros h Hh. apply elem_of_filter in Hh as [Hlt Hh].
    apply elem_of_filter. split; [lia|assumption].
  - intros Hsub. specialize (Hsub (cur + 1)).
    rewrite !elem_of_filter in Hsub.
    destruct Hsub as [Hlt _]; [split; [lia|assumption]|lia].
Qed.

Lemma weekday_range d : 0 <= weekday d < 7.
Proof. unfold weekday. apply Z.mod_pos_bound. lia. Qed.

Lemma weekday_succ d :
  weekday (d + 1) = if weekday d =? 6 then 0 else weekday d + 1.
Proof.
  unfold weekday. destruct (Z.eqb_spec ((d - 1) mod 7) 6);
    Z.div_mod_to_equations; lia.
Qed.

Lemma weekend_debt_nonneg w : 0 <= weekend_debt w.
Proof. unfold weekend_debt. destruct (w =? 4), (w =? 5); lia. Qed.

(** One iteration lowers the potential. *)
Lemma potential_step days cur added :
  potential days (cur + 1) (if working (cur + 1) then added + 1 else added)
  <= potential days cur added - 1.
Proof.
  unfold potential, is_working_day.
  pose proof (weekday_range cur) as Hr. pose proof (weekday_succ cur) as Hs.
  pose proof (holidays_after_mono cur) as Hm.
  destruct (Z.ltb_spec (weekday (cur + 1)) 5) as [Hwd|Hwe]; cbn [andb].
  - assert (Hdebt : weekend_debt (weekday (cur + 1))
                    <= weekend_debt (weekday cur) + 2).
    { unfold weekend_debt. rewrite Hs.
      destruct (Z.eqb_spec (weekday cur) 6) as [->|]; cbn; [lia|].
      repeat match goal with |- context [Z.eqb ?a ?b] =>
        destruct (Z.eqb_spec a b) end; lia. }
    destruct (bool_decide (cur + 1 ∈ HOLIDAYS)) eqn:Hh; cbn [negb].
    + apply bool_decide_eq_true in Hh.
      pose proof (holidays_after_holiday cur Hh). lia.
    + lia.
  - assert (Hdebt : weekend_debt (weekday (cur + 1))
                    = weekend_debt (weekday cur) - 1).
    { unfold weekend_debt. rewrite Hs in Hwe |- *.
      destruct (Z.eqb_spec (weekday cur) 6) as [->|]; [lia|].
      repeat match goal with |- context [Z.eqb ?a ?b] =>
        destruct (Z.eqb_spec a b) end; lia. }
    lia.
Qed.

Lemma potential_pos days cur added : added < days -> 3 <= potential days cur added.
Proof.
  intros H. unfold potential.
  pose proof (holidays_after_nonneg cur).
  pose proof (weekend_debt_nonneg (weekday cur)). lia.
Qed.

Lemma date_add_one cur :
  date_add cur 1 = if (1 <=? cur + 1) && (cur + 1 <=? MAXORDINAL)
                   then Ok (cur + 1) else Raise OverflowError.
Proof. reflexivity. Qed.

(** With fuel above the potential the loop finishes: it returns a date or
    raises [OverflowError] at the end of the calendar. *)
Lemma loop_finishes days : forall fuel cur added,
  (added < days -> potential days cur added < Z.of_nat fuel) ->
  (exists d, loop fuel days cur added = Some (Ok d) /\ cur <= d /\
             (added < days -> cur < d))
  \/ loop fuel days cur added = Some (Raise OverflowError).
Proof.
  induction fuel as [|fuel IH]; intros cur added Hfuel; cbn [add_working_days_loop];
    destruct (Z.ltb_spec added days) as [Hlt|Hge];
    try (left; exists cur; repeat split; lia).
  - specialize (Hfuel Hlt). pose proof (potential_pos days cur added Hlt). lia.
  - rewrite date_add_one.
    destruct ((1 <=? cur + 1) && (cur + 1 <=? MAXORDINAL)); [|now right].
    destruct (IH (cur + 1) (if working (cur + 1) then added + 1 else added))
      as [(d & Hd & Hle & _)|Hraise].
    + intros _. pose proof (potential_step days cur added).
      specialize (Hfuel Hlt). lia.
    + left. exists d. repeat split; [exact Hd|lia|lia].
    + now right.
Qed.

(** With room in the calendar for every iteration the loop returns a date. *)
Lemma loop_returns days : forall fuel cur added,
  (added < days -> potential days cur added < Z.of_nat fuel) ->
  0 <= cur -> cur + Z.of_nat fuel <= MAXORDINAL ->
  exists d, loop fuel days cur added = Some (Ok d) /\ cur <= d /\
            d <= cur + Z.of_nat fuel /\ (added < days -> cur < d).
Proof.
  induction fuel as [|fuel IH]; intros cur added Hfuel Hlo Hhi;
    cbn [add_working_days_loop];
    destruct (Z.ltb_spec added days) as [Hlt|Hge];
    try (exists cur; repeat split; lia).
  - specialize (Hfuel Hlt). pose proof (potential_pos days cur added Hlt). lia.
  - rewrite date_add_one.
    destruct (Z.leb_spec 1 (cur + 1)); [|lia].
    destruct (Z.leb_spec (cur + 1) MAXORDINAL); [|lia]. cbn [andb].
    destruct (IH (cur + 1) (if working (cur + 1) then added + 1 else added))
      as (d & Hd & Hle & Hub & _); try lia.
    + intros _. pose proof (potential_step days cur added).
      specialize (Hfuel Hlt). lia.
    + exists d. repeat split; [exact Hd|lia|lia|lia].
Qed.

Lemma fuel_covers_potential days start :
  0 < days ->
  potential days start 0 < Z.of_nat (add_working_days_fuel HOLIDAYS days).
Proof.
  intros Hd. unfold potential, add_working_days_fuel.
  pose proof (holidays_after_le_size start).
  pose proof (weekday_range start).
  assert (weekend_debt (weekday start) <= 2).
  { unfold weekend_debt.
    destruct (weekday start =? 4), (weekday start =? 5); lia. }
  lia.
Qed.

(** What the loop returns is the date at which [working_days_between]
    counts [days] working days since [cur]. *)
Lemma loop_counts days : forall fuel cur added d,
  added <= days -> loop fuel days cur added = Some (Ok d) ->
  exists n, d = cur + Z.of_nat n /\
            working_days_between_loop HOLIDAYS n cur added = Ok days.
Proof.
  induction fuel as [|fuel IH]; intros cur added d Hle;
    cbn [add_working_days_loop];
    destruct (Z.ltb_spec added days) as [Hlt|Hge]; try discriminate;
    try (intros [= <-]; exists 0%nat; split; [lia|cbn; f_equal; lia]).
  destruct (date_add cur 1) as [cur'|e] eqn:Hadd; [|discriminate].
  intros Hloop. apply IH in Hloop as (n & -> & Hn).
  - exists (S n). split.
    + rewrite date_add_one in Hadd.
      destruct (_ && _); [|discriminate]. injection Hadd as <-. lia.
    + cbn [working_days_between_loop]. now rewrite Hadd.
  - destruct (working cur'); lia.
Qed.

(** A value of [datetime.date]. *)
Definition valid_date (d : Z) : Prop := 1 <= d <= MAXORDINAL.

(** The days [add_working_days] may need at most: the iterations it is
    given. *)
Definition reach (days : Z) : Z :=
  3 * (Z.max 0 days + Z.of_nat (size HOLIDAYS)) + 3.

Lemma fuel_reach days : Z.of_nat (add_working_days_fuel HOLIDAYS days) = reach days.
Proof. unfold add_working_days_fuel, reach. lia. Qed.

(** The loop finishes within the fuel [add_working_days] gives it. *)
Lemma add_working_days_finishes start days :
  (exists d, add_working_days HOLIDAYS start days = Some (Ok d) /\
             start <= d /\ (0 < days -> start < d))
  \/ add_working_days HOLIDAYS start days = Some (Raise OverflowError).
Proof. apply loop_finishes. apply fuel_covers_potential. Qed.

(** With [reach days] days left in the calendar after a valid start it
    returns a date. *)
Lemma add_working_days_returns start days :
  valid_date start -> start + reach days <= MAXORDINAL ->
  exists d, add_working_days HOLIDAYS start days = Some (Ok d) /\
            start <= d <= start + reach days /\ (0 < days -> start < d).
Proof.
  intros [Hlo _] Hroom. unfold add_working_days.
  destruct (loop_returns days (add_working_days_fuel HOLIDAYS days) start 0)
    as (d & Hd & Hle & Hub & Hlt).
  - apply fuel_covers_potential.
  - lia.
  - rewrite fuel_reach. exact Hroom.
  - rewrite fuel_reach in Hub. exists d. repeat split; assumption.
Qed.

(** C10, as the code has it: on every start date and every count the loop
    of [add_working_days] finishes within its fuel, by a date not before the
    start (strictly after it for a positive count) or by the [OverflowError]
    of [date] past 9999-12-31; it returns a date whenever the calendar has
    [reach days] days left after a valid start. *)
Theorem add_working_days_terminates start days :
  ((exists d, add_working_days HOLIDAYS start days = Some (Ok d) /\
              start <= d /\ (0 < days -> start < d))
   \/ add_working_days HOLIDAYS start days = Some (Raise OverflowError)) /\
  (valid_date start -> start + reach days <= MAXORDINAL ->
   exists d, add_working_days HOLIDAYS start days = Some (Ok d) /\
             start <= d <= start + reach days /\ (0 < days -> start < d)).
Proof.
  split.
  - apply add_working_days_finishes.
  - apply add_working_days_returns.
Qed.

(** X2: the date [add_working_days] returns for a count that is not
    negative is the one at which [working_days_between] counts [days]
    working days since the start. *)
Lemma add_working_days_between start days d :
  0 <= days -> add_working_days HOLIDAYS start days = Some (Ok d) ->
  working_days_between HOLIDAYS start d = Ok days.
Proof.
  intros Hdays Hadd. unfold add_working_days in Hadd.
  apply loop_counts in Hadd as (n & -> & Hn); [|exact Hdays].
  unfold working_days_between. destruct (Z.ltb_spec (start + Z.of_nat n) start); [lia|].
  replace (Z.to_nat (start + Z.of_nat n - start)) with n by lia. exact Hn.
Qed.

Lemma working_days_between_loop_returns : forall n cur cnt,
  0 <= cur -> cur + Z.of_nat n <= MAXORDINAL ->
  exists k, working_days_between_loop HOLIDAYS n cur cnt = Ok k.
Proof.
  induction n as [|n IH]; intros cur cnt Hlo Hhi; cbn [working_days_between_loop].
  - eauto.
  - rewrite date_add_one.
    destruct (Z.leb_spec 1 (cur + 1)); [|lia].
    destruct (Z.leb_spec (cur + 1) MAXORDINAL); [|lia]. cbn.
    apply IH; lia.
Qed.

Lemma working_days_between_returns start end_ :
  valid_date start -> valid_date end_ ->
  exists k, working_days_between HOLIDAYS start end_ = Ok k.
Proof.
  intros [Hs _] [_ He]. unfold working_days_between.
  destruct (Z.ltb_spec end_ start); [eauto|].
  apply working_days_between_loop_returns; lia.
Qed.

Section Sla.
Variables SLA_WDAYS INVOICE_LATER_DAYS FINANCE_ESCALATION_DAYS : Z.

Local Abbreviation classify :=
  (classify_cc_row HOLIDAYS SLA_WDAYS INVOICE_LATER_DAYS FINANCE_ESCALATION_DAYS).

Lemma stage_row_returns t age overdue today :
  valid_date (txn_date t) -> valid_date today ->
  exists st, stage_row HOLIDAYS SLA_WDAYS INVOICE_LATER_DAYS
               FINANCE_ESCALATION_DAYS t age overdue today = Ok st.
Proof.
  intros Ht Htoday. unfold stage_row.
  destruct (_ && _); [eauto|]. destruct (_ && _); [eauto|].
  destruct overdue; [|eauto].
  destruct (working_days_between_returns _ _ Ht Htoday) as (k & ->). cbn.
  destruct (SLA_WDAYS <=? k); eauto.
Qed.

(** With valid dates and room in the calendar for the SLA, a row is
    classified. *)
Lemma classify_cc_row_returns t today :
  valid_date (txn_date t) -> txn_date t + reach SLA_WDAYS <= MAXORDINAL ->
  valid_date today ->
  exists r, classify today t = Some (Ok r).
Proof.
  intros Hdate Hroom Htoday.
  destruct (add_working_days_returns (txn_date t) SLA_WDAYS Hdate Hroom)
    as (due & Hdue & _).
  unfold classify_cc_row. rewrite Hdue. cbn.
  destruct (stage_row_returns t (if invoice_later t then today - txn_date t else 0)
              (bool_decide (entered_at t = None) && (due <? today)) today
              Hdate Htoday) as (st & ->).
  cbn. eauto.
Qed.

(** What a classified row holds for a transaction that was not entered. *)
Lemma classify_cc_row_overdue t today r :
  entered_at t = None ->
  classify today t = Some (Ok r) ->
  txn r = t /\
  add_working_days HOLIDAYS (txn_date t) SLA_WDAYS = Some (Ok (sla_due_date r)) /\
  is_overdue r = (sla_due_date r <? today).
Proof.
  intros Hentered. unfold classify_cc_row.
  destruct (add_working_days _ _ _) as [[due|e]|]; cbn; try discriminate.
  rewrite Hentered. cbn.
  destruct (stage_row _ _ _ _ _ _ _ _) as [st|e]; cbn; [|discriminate].
  intros [= <-]. cbn. repeat split.
Qed.

(** The rows of [classify_cc_rows] are the rows of [classify_cc_row]. *)
Lemma classify_cc_rows_row : forall rows today out r,
  classify_cc_rows HOLIDAYS SLA_WDAYS INVOICE_LATER_DAYS
    FINANCE_ESCALATION_DAYS rows today = Some (Ok out) ->
  In r out -> exists t, In t rows /\ classify today t = Some (Ok r).
Proof.
  induction rows as [|t rest IH]; intros today out r; cbn [classify_cc_rows].
  - intros [= <-] [].
  - destruct (classify_cc_row _ _ _ _ today t) as [[a|e]|] eqn:Ht; cbn;
      try discriminate;
      destruct (classify_cc_rows _ _ _ _ rest today) as [[l|e']|] eqn:Hrest;
      cbn; try discriminate.
    intros [= <-] [<- | Hin].
    + exists t. split; [now left|exact Ht].
    + destruct (IH today l r Hrest Hin) as (t' & Hin' & Ht').
      exists t'. split; [now right|exact Ht'].
Qed.


(** A transaction that was entered is never overdue. *)
Lemma entered_not_overdue t today ts r :
  entered_at t = Some ts -> classify today t = Some (Ok r) ->
  is_overdue r = false.
Proof.
  intros Hentered. unfold classify_cc_row.
  destruct (add_working_days _ _ _) as [[due|e]|]; cbn; try discriminate.
  rewrite Hentered. cbn.
  destruct (stage_row _ _ _ _ _ _ _ _) as [st|e]; cbn; [|discriminate].
  now intros [= <-].
Qed.

End Sla.
End Calendar.

(** ** Examples: September 2025, no holidays, a three-day SLA *)

(** Wednesday 2025-09-17 and the Monday after, 2025-09-22. *)
Definition d_2025_09_17 : Z := 739511.
Definition d_2025_09_22 : Z := 739516.

Definition txn_001 : CCTxn :=
  {| txn_id := "TXN001"; txn_date := d_2025_09_17; vendor := "AWS";
     card_last4 := "1234"; cardholder := "Amit Kumar";
     amount_inr := 15234%float; has_receipt := false; invoice_later := false;
     entered_at := None; entered_by := None |}.

(** Decide a closed comparison of dates by evaluation. *)
Ltac in_calendar := vm_compute; repeat split; discriminate.

Example a_wednesday : weekday d_2025_09_17 = 2.
Proof. reflexivity. Qed.

Example sla_due_skips_the_weekend :
  add_working_days ∅ d_2025_09_17 3 = Some (Ok d_2025_09_22).
Proof. reflexivity. Qed.

(** With that Monday a holiday the SLA falls due on the Tuesday. *)
Example sla_due_skips_a_holiday :
  add_working_days {[ d_2025_09_22 ]} d_2025_09_17 3
  = Some (Ok (d_2025_09_22 + 1)).
Proof. reflexivity. Qed.

(** C10 fails as stated on the last day of the calendar: one working day
    after 9999-12-31 is an [OverflowError], not a date. *)
Lemma add_working_days_overflows_at_date_max :
  add_working_days ∅ MAXORDINAL 1 = Some (Raise OverflowError) /\
  ~ exists d, add_working_days ∅ MAXORDINAL 1 = Some (Ok d) /\ MAXORDINAL < d.
Proof.
  split; [reflexivity|]. intros (d & Hd & _). discriminate.
Qed.

Lemma add_working_days_terminates_witness :
  exists d, add_working_days ∅ d_2025_09_17 3 = Some (Ok d) /\
            d_2025_09_17 < d.
Proof.
  destruct (add_working_days_terminates ∅ d_2025_09_17 3) as [_ H].
  destruct H as (d & Hd & _ & Hlt).
  - in_calendar.
  - in_calendar.
  - exists d. split; [exact Hd|]. apply Hlt. lia.
Defined.

(** The example of the module on the Monday its SLA falls due, and on the
    Tuesday after. *)
Definition txn_001_on_due_date : CCAnnotated :=
  {| txn := txn_001; sla_due_date := d_2025_09_22;
     invoice_later_age_days := 0; is_overdue := false;
     stage := None; flag := None |}.


Example txn_001_overdue_the_day_after :
  exists r, classify_cc_row ∅ 3 14 30 (d_2025_09_22 + 1) txn_001 = Some (Ok r) /\
            is_overdue r = true /\ stage r = Some "D3" /\
            flag r = Some "LateEntry".
Proof. eexists. split; [reflexivity|]. repeat split. Qed.

End CcMonitorSpec.
(** * Further properties of the credit-card monitor *)
Module CcMonitorProps.
Import CcMonitor CcMonitorSpec.

Section Calendar.
Variable HOLIDAYS : gset Z.

Local Abbreviation working := (is_working_day HOLIDAYS).
Local Abbreviation loop := (add_working_days_loop HOLIDAYS).
Local Abbreviation between_loop := (working_days_between_loop HOLIDAYS).
Local Abbreviation between := (working_days_between HOLIDAYS).

(** The working days among the [n] dates from [first] on. *)
Definition working_days_in (first n : Z) : Z :=
  Z.of_nat (length (filter (fun d => working d) (seqZ first n))).

Lemma working_days_in_nonneg first n : 0 <= working_days_in first n.
Proof. unfold working_days_in. lia. Qed.

Lemma working_days_in_cons first n :
  0 < n ->
  working_days_in first n
  = (if working first then 1 else 0) + working_days_in (first + 1) (n - 1).
Proof.
  intros Hn. unfold working_days_in. rewrite (seqZ_cons first n) by lia.
  change (Z.succ first) with (first + 1). change (Z.pred n) with (n - 1).
  rewrite filter_cons. destruct (working first) eqn:Hw.
  - rewrite decide_True by (unfold Is_true; rewrite ?Hw; auto).
    cbn [length]. lia.
  - rewrite decide_False by (unfold Is_true; rewrite ?Hw; auto). lia.
Qed.

(** With room in the calendar the loop of [working_days_between] adds the
    working days among the [n] dates after [cur]. *)
Lemma between_loop_counts : forall n cur cnt,
  0 <= cur -> cur + Z.of_nat n <= MAXORDINAL ->
  between_loop n cur cnt = Ok (cnt + working_days_in (cur + 1) (Z.of_nat n)).
Proof.
  induction n as [|n IH]; intros cur cnt Hlo Hhi; cbn [working_days_between_loop].
  - unfold working_days_in. rewrite seqZ_nil by lia. cbn. f_equal. lia.
  - rewrite date_add_one.
    destruct (Z.leb_spec 1 (cur + 1)); [|lia].
    destruct (Z.leb_spec (cur + 1) MAXORDINAL); [|lia]. cbn.
    rewrite IH by lia. f_equal.
    rewrite (working_days_in_cons (cur + 1) (Z.of_nat (S n))) by lia.
    replace (Z.of_nat (S n) - 1) with (Z.of_nat n) by lia.
    destruct (working (cur + 1)); lia.
Qed.

(** The loop only adds to its counter. *)
Lemma between_loop_grows : forall n cur cnt k,
  between_loop n cur cnt = Ok k -> cnt <= k.
Proof.
  induction n as [|n IH]; intros cur cnt k; cbn [working_days_between_loop].
  - intros [= <-]. lia.
  - destruct (date_add cur 1) as [cur'|e]; cbn; [|discriminate].
    intros H. apply IH in H. destruct (working cur'); lia.
Qed.

(** Running [n + m] iterations is running [n] and then [m]. *)
Lemma between_loop_app : forall n m cur cnt k,
  between_loop (n + m) cur cnt = Ok k ->
  exists k1, between_loop n cur cnt = Ok k1 /\
             between_loop m (cur + Z.of_nat n) k1 = Ok k.
Proof.
  induction n as [|n IH]; intros m cur cnt k; cbn [working_days_between_loop Nat.add].
  - intros H. exists cnt. split; [reflexivity|].
    now replace (cur + Z.of_nat 0) with cur by lia.
  - rewrite date_add_one. destruct (_ && _); cbn; [|discriminate].
    intros H. apply IH in H as (k1 & H1 & H2). exists k1. split; [exact H1|].
    now replace (cur + Z.of_nat (S n)) with (cur + 1 + Z.of_nat n) by lia.
Qed.

(** An iteration that ends on a working day counts it. *)
Lemma between_loop_last n cur cnt k :
  between_loop (S n) cur cnt = Ok k -> working (cur + Z.of_nat (S n)) = true ->
  cnt + 1 <= k.
Proof.
  replace (S n) with (n + 1)%nat by lia. intros H Hw.
  apply between_loop_app in H as (k1 & H1 & H2).
  apply between_loop_grows in H1.
  cbn [working_days_between_loop] in H2. rewrite date_add_one in H2.
  destruct (_ && _); cbn in H2; [|discriminate].
  replace (cur + Z.of_nat n + 1) with (cur + Z.of_nat (n + 1)) in H2 by lia.
  rewrite Hw in H2. injection H2 as <-. lia.
Qed.

(** When the loop of [add_working_days] has a day to add, it ends on a
    working day after [cur]. *)
Lemma loop_ends_on_working_day days : forall fuel cur added d,
  added < days -> loop fuel days cur added = Some (Ok d) ->
  working d = true /\ cur < d.
Proof.
  induction fuel as [|fuel IH]; intros cur added d Hlt;
    cbn [add_working_days_loop];
    (destruct (Z.ltb_spec added days) as [_|Hge]; [|exfalso; lia]);
    [discriminate|].
  rewrite date_add_one. destruct (_ && _); [|discriminate].
  destruct (working (cur + 1)) eqn:Hw.
  - destruct (Z.lt_ge_cases (added + 1) days) as [Hmore|Hdone].
    + intros H. apply IH in H as [Hd Hcur]; [|exact Hmore]. split; [exact Hd|lia].
    + destruct fuel as [|fuel']; cbn [add_working_days_loop];
        (destruct (Z.ltb_spec (added + 1) days); [exfalso; lia|]);
        intros [= <-]; (split; [exact Hw|lia]).
  - intros H. apply IH in H as [Hd Hcur]; [|exact Hlt]. split; [exact Hd|lia].
Qed.

(** X1: between two dates of the calendar [working_days_between] counts
    the working days after [start] up to and including [end_]; the start
    date itself is not counted, and an end before the start counts
    nothing. *)
Theorem working_days_between_counts start end_ :
  valid_date start -> valid_date end_ ->
  working_days_between HOLIDAYS start end_
  = Ok (working_days_in (start + 1) (end_ - start)).
Proof.
  intros [Hs _] [_ He]. unfold working_days_between.
  destruct (Z.ltb_spec end_ start) as [Hlt|Hle].
  - unfold working_days_in. rewrite seqZ_nil by lia. reflexivity.
  - rewrite between_loop_counts by lia. f_equal.
    rewrite Z2Nat.id by lia. lia.
Qed.

(** X3: for a positive count the date [add_working_days] returns is a
    working day after the start, and the earliest date that has [days]
    working days since the start: every date before it counts fewer. A
    count of zero or less returns the start date itself, working day or
    not. *)
Theorem add_working_days_earliest start days d :
  add_working_days HOLIDAYS start days = Some (Ok d) ->
  (days <= 0 -> d = start) /\
  (0 < days ->
   is_working_day HOLIDAYS d = true /\ start < d /\
   forall d', start <= d' < d ->
     exists k, working_days_between HOLIDAYS start d' = Ok k /\ k < days).
Proof.
  intros Hadd. split.
  - intros Hdays. unfold add_working_days in Hadd.
    destruct (add_working_days_fuel HOLIDAYS days);
      cbn [add_working_days_loop] in Hadd;
      (destruct (Z.ltb_spec 0 days); [exfalso; lia|]); now injection Hadd.
  - intros Hdays. unfold add_working_days in Hadd.
    destruct (loop_ends_on_working_day days _ start 0 d Hdays Hadd) as [Hw Hlt].
    split; [exact Hw|]. split; [exact Hlt|].
    intros d' [Hlo Hhi].
    apply loop_counts in Hadd as (n & Hd & Hn); [|lia].
    unfold working_days_between. destruct (Z.ltb_spec d' start); [lia|].
    set (m := Z.to_nat (d' - start)).
    assert (Hsplit : n = (m + S (n - m - 1))%nat) by lia.
    rewrite Hsplit in Hn. apply between_loop_app in Hn as (k1 & H1 & H2).
    exists k1. split; [exact H1|].
    apply between_loop_last in H2; [lia|].
    replace (start + Z.of_nat m + Z.of_nat (S (n - m - 1))) with d by lia.
    exact Hw.
Qed.

Section Sla.
Variables SLA_WDAYS INVOICE_LATER_DAYS FINANCE_ESCALATION_DAYS : Z.

Local Abbreviation classify :=
  (classify_cc_row HOLIDAYS SLA_WDAYS INVOICE_LATER_DAYS FINANCE_ESCALATION_DAYS).
Local Abbreviation classify_all :=
  (classify_cc_rows HOLIDAYS SLA_WDAYS INVOICE_LATER_DAYS FINANCE_ESCALATION_DAYS).

(** The count of line 168 for an overdue row reaches the SLA. *)
Lemma overdue_count_reaches_sla start today due wd :
  add_working_days HOLIDAYS start SLA_WDAYS = Some (Ok due) ->
  due < today -> between start today = Ok wd -> SLA_WDAYS <= wd.
Proof.
  intros Hdue Hlt Hwd.
  assert (Hnonneg : 0 <= wd).
  { unfold working_days_between in Hwd. destruct (today <? start).
    - injection Hwd as <-. lia.
    - now apply between_loop_grows in Hwd. }
  destruct (Z.le_gt_cases SLA_WDAYS 0) as [Hneg|Hpos]; [lia|].
  unfold add_working_days in Hdue.
  apply loop_counts in Hdue as (n & Hd & Hn); [|lia].
  unfold working_days_between in Hwd.
  destruct (Z.ltb_spec today start); [lia|].
  replace (Z.to_nat (today - start))
    with (n + Z.to_nat (today - due))%nat in Hwd by lia.
  apply between_loop_app in Hwd as (k1 & H1 & H2).
  rewrite Hn in H1. injection H1 as <-.
  now apply between_loop_grows in H2.
Qed.

Lemma classify_cc_row_txn t today r :
  classify today t = Some (Ok r) -> txn r = t.
Proof.
  unfold classify_cc_row.
  destruct (add_working_days _ _ _) as [[due|e]|]; cbn; try discriminate.
  destruct (stage_row _ _ _ _ _ _ _ _) as [st|e]; cbn; [|discriminate].
  now intros [= <-].
Qed.

(** X4: the stage of a classified row follows from its own columns: D30
    and D14 by the age of an invoice-later row, else D3 exactly when the
    row is overdue. The count of working days on lines 168-169 never
    withholds the stage, so every overdue row is staged. *)
Theorem stage_of_classified_row t today r :
  classify_cc_row HOLIDAYS SLA_WDAYS INVOICE_LATER_DAYS
    FINANCE_ESCALATION_DAYS today t = Some (Ok r) ->
  stage r =
    (if invoice_later t
        && (FINANCE_ESCALATION_DAYS <=? invoice_later_age_days r)
     then Some "D30"
     else if invoice_later t
             && (INVOICE_LATER_DAYS <=? invoice_later_age_days r)
     then Some "D14"
     else if is_overdue r then Some "D3" else None) /\
  (is_overdue r = true -> stage r <> None).
Proof.
  unfold classify_cc_row.
  destruct (add_working_days _ _ _) as [[due|e]|] eqn:Hdue; cbn;
    try discriminate.
  set (age := if invoice_later t then today - txn_date t else 0).
  set (overdue := bool_decide (entered_at t = None) && (due <? today)).
  assert (Hstage : forall st,
    stage_row HOLIDAYS SLA_WDAYS INVOICE_LATER_DAYS FINANCE_ESCALATION_DAYS
      t age overdue today = Ok st ->
    st = (if invoice_later t && (FINANCE_ESCALATION_DAYS <=? age)
          then Some "D30"
          else if invoice_later t && (INVOICE_LATER_DAYS <=? age)
          then Some "D14"
          else if overdue then Some "D3" else None)).
  { intros st. unfold stage_row.
    destruct (invoice_later t && (FINANCE_ESCALATION_DAYS <=? age));
      [now intros [= <-]|].
    destruct (invoice_later t && (INVOICE_LATER_DAYS <=? age));
      [now intros [= <-]|].
    destruct overdue eqn:Hov; [|now intros [= <-]].
    destruct (between (txn_date t) today) as [wd|e] eqn:Hwd; cbn;
      [|discriminate].
    apply andb_true_iff in Hov as [_ Hlt%Z.ltb_lt].
    pose proof (overdue_count_reaches_sla _ _ _ _ Hdue Hlt Hwd) as Hsla.
    destruct (Z.leb_spec SLA_WDAYS wd); [|lia]. now intros [= <-]. }
  destruct (stage_row _ _ _ _ _ _ _ _) as [st|e]; cbn; [|discriminate].
  intros [= <-]. cbn. specialize (Hstage st eq_refl). split; [exact Hstage|].
  intros Hov. rewrite Hstage, Hov.
  destruct (invoice_later t && (FINANCE_ESCALATION_DAYS <=? age));
    [discriminate|].
  destruct (invoice_later t && (INVOICE_LATER_DAYS <=? age)); discriminate.
Qed.

(** The values [stage_row] returns: a D14 or D30 stage only on an
    invoice-later row. *)
Lemma stage_row_values t age overdue today st :
  stage_row HOLIDAYS SLA_WDAYS INVOICE_LATER_DAYS FINANCE_ESCALATION_DAYS
    t age overdue today = Ok st ->
  st = None \/ st = Some "D3"
  \/ (st = Some "D14" \/ st = Some "D30") /\ invoice_later t = true.
Proof.
  unfold stage_row.
  destruct (invoice_later t); cbn [andb].
  - destruct (FINANCE_ESCALATION_DAYS <=? age); [intros [= <-]; auto|].
    destruct (INVOICE_LATER_DAYS <=? age); [intros [= <-]; auto|].
    destruct overdue; [|intros [= <-]; auto].
    destruct (between _ _) as [wd|e]; cbn; [|discriminate].
    destruct (SLA_WDAYS <=? wd); intros [= <-]; auto.
  - destruct overdue; [|intros [= <-]; auto].
    destruct (between _ _) as [wd|e]; cbn; [|discriminate].
    destruct (SLA_WDAYS <=? wd); intros [= <-]; auto.
Qed.

(** The flag column of a classified row is computed from its stage. *)
Lemma classify_cc_row_flag t today r :
  classify today t = Some (Ok r) ->
  flag r = flag_of t (stage r) /\
  (stage r = None \/ stage r = Some "D3"
   \/ (stage r = Some "D14" \/ stage r = Some "D30")
      /\ invoice_later t = true).
Proof.
  unfold classify_cc_row.
  destruct (add_working_days _ _ _) as [[due|e]|]; cbn; try discriminate.
  destruct (stage_row _ _ _ _ _ _ _ _) as [st|e] eqn:Hst; cbn;
    [|discriminate].
  intros [= <-]. cbn. split; [reflexivity|].
  exact (stage_row_values _ _ _ _ _ Hst).
Qed.

(** X5: the flag of a classified row follows from its stage and its
    receipt: none without a stage, LateEntry at D3, and at D14 or D30
    NoReceipt when the receipt is missing and InvoiceLater only when it is
    there. *)
Theorem flag_of_classified_row t today r :
  classify_cc_row HOLIDAYS SLA_WDAYS INVOICE_LATER_DAYS
    FINANCE_ESCALATION_DAYS today t = Some (Ok r) ->
  (flag r = None <-> stage r = None) /\
  (flag r = Some "LateEntry" <-> stage r = Some "D3") /\
  (flag r = Some "NoReceipt" <->
     (stage r = Some "D14" \/ stage r = Some "D30") /\ has_receipt t = false) /\
  (flag r = Some "InvoiceLater" <->
     (stage r = Some "D14" \/ stage r = Some "D30") /\ has_receipt t = true).
Proof.
  intros H. apply classify_cc_row_flag in H as [-> Hst].
  unfold flag_of.
  destruct Hst as [-> | [-> | [[-> | ->] ->]]];
    destruct (has_receipt t); cbn;
    (split; [|split; [|split]]); split;
    first [discriminate | reflexivity
          | intros [[H|H] _]; discriminate H
          | intros [_ H]; discriminate H
          | intros _; auto].
Qed.


End Sla.
End Calendar.

(** ** Examples: September 2025, no holidays, a three-day SLA *)

(** From Wednesday 2025-09-17 to the Monday after: Thursday, Friday and
    the Monday count. *)
Lemma working_days_between_counts_witness :
  working_days_between ∅ d_2025_09_17 d_2025_09_22 = Ok 3.
Proof.
  rewrite (working_days_between_counts ∅ d_2025_09_17 d_2025_09_22);
    [reflexivity | in_calendar | in_calendar].
Defined.

Lemma add_working_days_between_witness :
  add_working_days ∅ d_2025_09_17 3 = Some (Ok d_2025_09_22) /\
  working_days_between ∅ d_2025_09_17 d_2025_09_22 = Ok 3.
Proof.
  split; [reflexivity|].
  apply (add_working_days_between ∅ d_2025_09_17 3); [lia | reflexivity].
Defined.

Lemma add_working_days_earliest_witness :
  is_working_day ∅ d_2025_09_22 = true /\
  exists k, working_days_between ∅ d_2025_09_17 (d_2025_09_22 - 1) = Ok k /\
            k < 3.
Proof.
  assert (Hdue : add_working_days ∅ d_2025_09_17 3 = Some (Ok d_2025_09_22))
    by reflexivity.
  destruct (add_working_days_earliest ∅ d_2025_09_17 3 d_2025_09_22 Hdue)
    as [_ H].
  destruct H as (Hw & _ & Hmin); [lia|].
  split; [exact Hw|]. apply Hmin. in_calendar.
Defined.

(** The example of the module on the Tuesday after its SLA fell due. *)
Definition txn_001_overdue : CCAnnotated :=
  {| txn := txn_001; sla_due_date := d_2025_09_22;
     invoice_later_age_days := 0; is_overdue := true;
     stage := Some "D3"; flag := Some "LateEntry" |}.

Lemma stage_of_classified_row_witness :
  classify_cc_row ∅ 3 14 30 (d_2025_09_22 + 1) txn_001
    = Some (Ok txn_001_overdue) /\
  stage txn_001_overdue = Some "D3".
Proof.
  assert (H : classify_cc_row ∅ 3 14 30 (d_2025_09_22 + 1) txn_001
              = Some (Ok txn_001_overdue)) by reflexivity.
  split; [exact H|].
  exact (proj1 (stage_of_classified_row ∅ 3 14 30 txn_001 _ _ H)).
Defined.

(** An invoice-later purchase of 2025-09-05 without a receipt, seen on
    2025-09-22: the age of 17 days puts it at D14, and the missing receipt
    takes the flag. *)
Definition txn_002 : CCTxn :=
  {| txn_id := "TXN002"; txn_date := d_2025_09_17 - 12; vendor := "Apple";
     card_last4 := "5678"; cardholder := "Amit Kumar";
     amount_inr := 80490%float; has_receipt := false; invoice_later := true;
     entered_at := None; entered_by := None |}.

Definition txn_002_aged : CCAnnotated :=
  {| txn := txn_002; sla_due_date := d_2025_09_17 - 7;
     invoice_later_age_days := 17; is_overdue := true;
     stage := Some "D14"; flag := Some "NoReceipt" |}.

Lemma flag_of_classified_row_witness :
  classify_cc_row ∅ 3 14 30 d_2025_09_22 txn_002 = Some (Ok txn_002_aged) /\
  (flag txn_002_aged = Some "NoReceipt" <->
     (stage txn_002_aged = Some "D14" \/ stage txn_002_aged = Some "D30") /\
     has_receipt txn_002 = false).
Proof.
  assert (H : classify_cc_row ∅ 3 14 30 d_2025_09_22 txn_002
              = Some (Ok txn_002_aged)) by reflexivity.
  split; [exact H|].
  exact (proj1 (proj2 (proj2
           (flag_of_classified_row ∅ 3 14 30 txn_002 _ _ H)))).
Defined.


End CcMonitorProps.
(** * Properties of the run of the credit-card monitor *)
Module CcMonitorRunProps.
Import CcMonitor CcMonitorRun.

(** The log after the marking loop: what it held, and the reminders of
    the rows. *)
Lemma mark_all_elem log run_id audience stage rows x :
  x ∈ mark_all log run_id audience stage rows <->
  x ∈ log \/ exists r, In r rows /\ x = (run_id, audience, stage, txn_id (txn r)).
Proof.
  revert log. induction rows as [|r rest IH]; intros log; cbn [mark_all foldl].
  - split; [auto|]. intros [H|(r & [] & _)]. exact H.
  - fold (mark_all (mark_sent log run_id audience stage (txn_id (txn r)))
            run_id audience stage rest).
    rewrite IH. unfold mark_sent. rewrite elem_of_union, elem_of_singleton.
    split.
    + intros [[->|H]|(r' & Hin & ->)]; [right|left|right]; eauto.
      * exists r. split; [now left|reflexivity].
      * exists r'. split; [now right|reflexivity].
    + intros [H|(r' & [<-|Hin] & ->)]; [auto|auto|].
      right. exists r'. auto.
Qed.

Lemma mark_all_grows log run_id audience stage rows :
  log ⊆ mark_all log run_id audience stage rows.
Proof. intros x Hx. apply mark_all_elem. now left. Qed.

(** Every row of a stage is in the log once its unsent rows are marked. *)
Lemma marked_after log run_id audience stage rows r :
  In r rows ->
  (run_id, audience, stage, txn_id (txn r))
    ∈ mark_all log run_id audience stage
        (filter_unsent log run_id rows audience stage).
Proof.
  intros Hin. apply mark_all_elem.
  destruct (already_sent log run_id audience stage (txn_id (txn r))) eqn:E.
  - left. unfold already_sent in E. now apply bool_decide_eq_true in E.
  - right. exists r. split; [|reflexivity]. unfold filter_unsent.
    apply list_elem_of_In, list_elem_of_filter. split.
    + now rewrite E.
    + now apply list_elem_of_In.
Qed.

(** Nothing is unsent in a log that holds every row. *)
Lemma filter_unsent_nil log run_id audience stage rows :
  (forall r, In r rows -> (run_id, audience, stage, txn_id (txn r)) ∈ log) ->
  filter_unsent log run_id rows audience stage = [].
Proof.
  intros Hall. unfold filter_unsent.
  induction rows as [|r rest IH]; [reflexivity|].
  rewrite filter_cons. cbn beta.
  assert (E : already_sent log run_id audience stage (txn_id (txn r)) = true).
  { unfold already_sent. apply bool_decide_eq_true_2. apply Hall. now left. }
  rewrite E. cbn [negb]. rewrite decide_False by (cbn; auto).
  apply IH. intros r' Hr'. apply Hall. now right.
Qed.

Section Monitor.
Variable HOLIDAYS : gset Z.
Variables SLA_WDAYS INVOICE_LATER_DAYS FINANCE_ESCALATION_DAYS : Z.
Variable run_id_of : Z -> string.

Local Abbreviation run :=
  (run_cc_monitor HOLIDAYS SLA_WDAYS INVOICE_LATER_DAYS
     FINANCE_ESCALATION_DAYS run_id_of).

(** What a run that returns has computed. *)
Lemma run_returns cc_df today log out :
  run cc_df today log = Some (Ok out) ->
  let run_id := run_id_of today in
  let rows := annotated out in
  classify_cc_rows HOLIDAYS SLA_WDAYS INVOICE_LATER_DAYS
    FINANCE_ESCALATION_DAYS cc_df today = Some (Ok rows) /\
  sent_user out = filter_unsent log run_id (at_stage "D3" rows) "user" "D3" /\
  sent_ap out = filter_unsent log run_id (at_stage "D14" rows) "ap" "D14" /\
  sent_finance out
  = filter_unsent log run_id (at_stage "D30" rows) "finance" "D30" /\
  log_after out
  = mark_all (mark_all (mark_all log run_id "user" "D3" (sent_user out))
                run_id "ap" "D14" (sent_ap out))
      run_id "finance" "D30" (sent_finance out).
Proof.
  unfold run_cc_monitor.
  destruct (classify_cc_rows _ _ _ _ cc_df today) as [[rows|e]|]; cbn;
    try discriminate.
  intros [= <-]. cbn. repeat split.
Qed.

(** What a run hands on was not in the log, at the stage of its list. *)
Lemma unsent_rows log run_id audience st rows r :
  In r (filter_unsent log run_id (at_stage st rows) audience st) ->
  stage r = Some st /\ (run_id, audience, st, txn_id (txn r)) ∉ log.
Proof.
  intros Hin. unfold filter_unsent, at_stage in Hin.
  apply list_elem_of_In, list_elem_of_filter in Hin as [Hun Hin].
  apply list_elem_of_filter in Hin as [Hst _].
  apply bool_decide_unpack in Hst. split; [exact Hst|].
  unfold already_sent in Hun. intros Hlogged.
  rewrite (bool_decide_eq_true_2 _ Hlogged) in Hun. exact Hun.
Qed.

Lemma staged_rows st rows r :
  In r rows -> stage r = Some st -> In r (at_stage st rows).
Proof.
  intros Hin Hst. unfold at_stage.
  apply list_elem_of_In, list_elem_of_filter. split.
  - now apply bool_decide_pack.
  - now apply list_elem_of_In.
Qed.

(** After a run the log holds the reminder of every staged row. *)
Lemma staged_rows_logged cc_df today log out r :
  run cc_df today log = Some (Ok out) -> In r (annotated out) ->
  let run_id := run_id_of today in
  (stage r = Some "D3" ->
   (run_id, "user", "D3", txn_id (txn r)) ∈ log_after out) /\
  (stage r = Some "D14" ->
   (run_id, "ap", "D14", txn_id (txn r)) ∈ log_after out) /\
  (stage r = Some "D30" ->
   (run_id, "finance", "D30", txn_id (txn r)) ∈ log_after out).
Proof.
  intros Hrun Hin run_id.
  destruct (run_returns cc_df today log out Hrun)
    as (_ & Huser & Hap & Hfin & Hlog).
  fold run_id in Huser, Hap, Hfin, Hlog.
  rewrite Hlog, Huser, Hap, Hfin.
  repeat split; intros Hst; apply (staged_rows _ _ _ Hin) in Hst.
  - do 2 apply mark_all_grows. now apply marked_after.
  - apply mark_all_grows.
    pose proof (marked_after log run_id "ap" "D14" _ r Hst) as Hm.
    apply mark_all_elem in Hm. apply mark_all_elem.
    destruct Hm as [Hm|Hm]; [left; now apply mark_all_grows|now right].
  - pose proof (marked_after log run_id "finance" "D30" _ r Hst) as Hm.
    apply mark_all_elem in Hm. apply mark_all_elem.
    destruct Hm as [Hm|Hm]; [left; now do 2 apply mark_all_grows|now right].
Qed.

(** X21: a run hands the notifier only reminders that the log does not
    hold for its day, each at the stage of its audience, and leaves in the
    log the reminder of every staged row: the log it found, grown by what
    it sent. *)
Theorem run_cc_monitor_logs_every_reminder cc_df today log out :
  run_cc_monitor HOLIDAYS SLA_WDAYS INVOICE_LATER_DAYS FINANCE_ESCALATION_DAYS
    run_id_of cc_df today log = Some (Ok out) ->
  let run_id := run_id_of today in
  log ⊆ log_after out /\
  (forall r, In r (sent_user out) ->
     stage r = Some "D3" /\
     (run_id, "user", "D3", txn_id (txn r)) ∉ log) /\
  (forall r, In r (sent_ap out) ->
     stage r = Some "D14" /\
     (run_id, "ap", "D14", txn_id (txn r)) ∉ log) /\
  (forall r, In r (sent_finance out) ->
     stage r = Some "D30" /\
     (run_id, "finance", "D30", txn_id (txn r)) ∉ log) /\
  (forall r, In r (annotated out) ->
     (stage r = Some "D3" ->
      (run_id, "user", "D3", txn_id (txn r)) ∈ log_after out) /\
     (stage r = Some "D14" ->
      (run_id, "ap", "D14", txn_id (txn r)) ∈ log_after out) /\
     (stage r = Some "D30" ->
      (run_id, "finance", "D30", txn_id (txn r)) ∈ log_after out)).
Proof.
  intros Hrun run_id.
  destruct (run_returns cc_df today log out Hrun)
    as (_ & Huser & Hap & Hfin & Hlog).
  fold run_id in Huser, Hap, Hfin, Hlog.
  split; [|split; [|split; [|split]]].
  - rewrite Hlog. etransitivity; [apply mark_all_grows|].
    etransitivity; apply mark_all_grows.
  - rewrite Huser. apply unsent_rows.
  - rewrite Hap. apply unsent_rows.
  - rewrite Hfin. apply unsent_rows.
  - intros r Hin. now apply (staged_rows_logged cc_df today log out r).
Qed.

(** X22: a second run on the same day sends nothing. Run again on the
    log the first run left, with the same transactions and the same day,
    the monitor returns the same annotated rows, hands the notifier no
    row, and leaves the log as it is. *)
Theorem run_cc_monitor_is_idempotent cc_df today log out :
  run_cc_monitor HOLIDAYS SLA_WDAYS INVOICE_LATER_DAYS FINANCE_ESCALATION_DAYS
    run_id_of cc_df today log = Some (Ok out) ->
  run_cc_monitor HOLIDAYS SLA_WDAYS INVOICE_LATER_DAYS FINANCE_ESCALATION_DAYS
    run_id_of cc_df today (log_after out)
  = Some (Ok {| annotated := annotated out; sent_user := [];
                sent_ap := []; sent_finance := [];
                log_after := log_after out |}).
Proof.
  intros Hrun.
  assert (Hall := fun r Hin => staged_rows_logged cc_df today log out r Hrun Hin).
  destruct (run_returns cc_df today log out Hrun) as (Hrows & _).
  unfold run_cc_monitor. rewrite Hrows. cbn [mbind option_bind res_bind].
  assert (Hnil : forall audience st,
    (forall r, In r (annotated out) -> stage r = Some st ->
       (run_id_of today, audience, st, txn_id (txn r)) ∈ log_after out) ->
    filter_unsent (log_after out) (run_id_of today)
      (at_stage st (annotated out)) audience st = []).
  { intros audience st H. apply filter_unsent_nil. intros r Hin.
    unfold at_stage in Hin.
    apply list_elem_of_In, list_elem_of_filter in Hin as [Hst Hin].
    apply bool_decide_unpack in Hst. apply list_elem_of_In in Hin. auto. }
  rewrite (Hnil "user" "D3"), (Hnil "ap" "D14"), (Hnil "finance" "D30");
    [reflexivity|..]; intros r Hin Hst; now apply (Hall r Hin).
Qed.

Lemma filter_unsent_all log run_id audience stage rows :
  (forall id, (run_id, audience, stage, id) ∉ log) ->
  filter_unsent log run_id rows audience stage = rows.
Proof.
  intros Hnew. unfold filter_unsent.
  induction rows as [|r rest IH]; [reflexivity|].
  rewrite filter_cons. cbn beta.
  assert (E : already_sent log run_id audience stage (txn_id (txn r)) = false).
  { unfold already_sent. apply bool_decide_eq_false_2. apply Hnew. }
  rewrite E. cbn [negb]. rewrite decide_True by exact I. now rewrite IH.
Qed.

(** X23: the log keeps reminders apart by day. A run whose day has no
    reminder in the log hands the notifier every staged row, whatever the
    log holds for other days: a transaction that stays overdue is reminded
    of on every day the monitor runs. *)
Theorem first_run_of_a_day_sends_every_staged_row cc_df today log out :
  run_cc_monitor HOLIDAYS SLA_WDAYS INVOICE_LATER_DAYS FINANCE_ESCALATION_DAYS
    run_id_of cc_df today log = Some (Ok out) ->
  (forall audience st id, (run_id_of today, audience, st, id) ∉ log) ->
  sent_user out = at_stage "D3" (annotated out) /\
  sent_ap out = at_stage "D14" (annotated out) /\
  sent_finance out = at_stage "D30" (annotated out).
Proof.
  intros Hrun Hnew.
  destruct (run_returns cc_df today log out Hrun)
    as (_ & -> & -> & -> & _).
  repeat split; apply filter_unsent_all; intros id; apply Hnew.
Qed.

End Monitor.

(** ** Example: the two transactions of the module on 2025-09-23 *)

Import CcMonitorSpec CcMonitorProps.

Definition run_id_opaque (today : Z) : string := "<date>".

Lemma run_cc_monitor_logs_every_reminder_witness :
  exists out,
    run_cc_monitor ∅ 3 14 30 run_id_opaque [txn_001; txn_002]
      (d_2025_09_22 + 1) ∅ = Some (Ok out) /\
    map (fun r => txn_id (txn r)) (sent_user out) = ["TXN001"] /\
    map (fun r => txn_id (txn r)) (sent_ap out) = ["TXN002"] /\
    sent_finance out = [] /\
    ∅ ⊆ log_after out.
Proof.
  assert (Hout : exists out,
            run_cc_monitor ∅ 3 14 30 run_id_opaque [txn_001; txn_002]
              (d_2025_09_22 + 1) ∅ = Some (Ok out))
    by (eexists; reflexivity).
  destruct Hout as (out & Hout). exists out.
  pose proof (run_cc_monitor_logs_every_reminder ∅ 3 14 30 run_id_opaque
                [txn_001; txn_002] (d_2025_09_22 + 1) ∅ out Hout) as [Hlog _].
  split; [exact Hout|].
  vm_compute in Hout. injection Hout as <-.
  repeat split; try reflexivity. exact Hlog.
Defined.

Lemma run_cc_monitor_is_idempotent_witness :
  exists out,
    run_cc_monitor ∅ 3 14 30 run_id_opaque [txn_001; txn_002]
      (d_2025_09_22 + 1) ∅ = Some (Ok out) /\
    length (sent_user out) = 1%nat /\ length (sent_ap out) = 1%nat /\
    run_cc_monitor ∅ 3 14 30 run_id_opaque [txn_001; txn_002]
      (d_2025_09_22 + 1) (log_after out)
    = Some (Ok {| annotated := annotated out; sent_user := [];
                  sent_ap := []; sent_finance := [];
                  log_after := log_after out |}).
Proof.
  assert (Hout : exists out,
            run_cc_monitor ∅ 3 14 30 run_id_opaque [txn_001; txn_002]
              (d_2025_09_22 + 1) ∅ = Some (Ok out))
    by (eexists; reflexivity).
  destruct Hout as (out & Hout). exists out.
  pose proof (run_cc_monitor_is_idempotent ∅ 3 14 30 run_id_opaque
                [txn_001; txn_002] (d_2025_09_22 + 1) ∅ out Hout) as Hagain.
  split; [exact Hout|].
  split; [|split; [|exact Hagain]];
    vm_compute in Hout; injection Hout as <-; reflexivity.
Defined.

(** The day before, TXN002 was at D14 already and its reminder is in the
    log; on the 23rd it is sent again, under the run of that day. *)
Definition run_id_of_example (today : Z) : string :=
  if today =? d_2025_09_22 + 1 then "2025-09-23" else "2025-09-22".

Definition log_of_the_22nd : ReminderLog :=
  {[ ("2025-09-22", "ap", "D14", "TXN002") ]}.

Lemma first_run_of_a_day_sends_every_staged_row_witness :
  exists out,
    run_cc_monitor ∅ 3 14 30 run_id_of_example [txn_001; txn_002]
      (d_2025_09_22 + 1) log_of_the_22nd = Some (Ok out) /\
    sent_ap out = at_stage "D14" (annotated out) /\
    map (fun r => txn_id (txn r)) (sent_ap out) = ["TXN002"].
Proof.
  assert (Hout : exists out,
            run_cc_monitor ∅ 3 14 30 run_id_of_example [txn_001; txn_002]
              (d_2025_09_22 + 1) log_of_the_22nd = Some (Ok out))
    by (eexists; reflexivity).
  destruct Hout as (out & Hout). exists out.
  assert (Hnew : forall audience st id,
            (run_id_of_example (d_2025_09_22 + 1), audience, st, id)
              ∉ log_of_the_22nd).
  { intros audience st id H. apply elem_of_singleton in H. discriminate H. }
  pose proof (first_run_of_a_day_sends_every_staged_row ∅ 3 14 30
                run_id_of_example [txn_001; txn_002] (d_2025_09_22 + 1)
                log_of_the_22nd out Hout Hnew) as (_ & Hap & _).
  split; [exact Hout|]. split; [exact Hap|].
  vm_compute in Hout. injection Hout as <-. reflexivity.
Defined.

End CcMonitorRunProps.

(** * Properties of the Stripe checker *)
Module StripeIntegrityCheckerSpec.
Import Pandas StripeIntegrityChecker FloatFacts.

(** ** AmountMismatch *)

Section Flags.
Variables (AMT_TOL : float) (DATE_WIN_DAYS : Z).
Variables (fmt_cell : cell -> string) (fmt : float -> string)
          (fmt_int : Z -> string).

Local Abbreviation flags_of :=
  (row_flags AMT_TOL DATE_WIN_DAYS fmt_cell fmt fmt_int).

Definition is_amount_mismatch (f : Flag) : bool :=
  String.eqb (flag f) "AmountMismatch".

(** The row raises an AmountMismatch flag. *)
Definition raises_amount_mismatch (r : gmap string cell) : bool :=
  existsb is_amount_mismatch (flags_of r).

Lemma raises_amount_mismatch_amt_ok r :
  raises_amount_mismatch r = negb (amt_ok AMT_TOL r).
Proof.
  unfold raises_amount_mismatch, row_flags.
  rewrite existsb_app.
  assert (Hdrift : existsb is_amount_mismatch
            match date_drift r with
            | Some drift =>
                if DATE_WIN_DAYS <? drift
                then [date_drift_flag DATE_WIN_DAYS fmt_int r drift] else []
            | None => []
            end = false).
  { destruct (date_drift r) as [d|]; [|reflexivity].
    destruct (DATE_WIN_DAYS <? d); reflexivity. }
  rewrite Hdrift, orb_false_r. destruct (amt_ok AMT_TOL r); reflexivity.
Qed.

(** The AmountMismatch flags of [matches] are those of its rows that fail
    line 218, in order. *)
Lemma mismatch_flags_amount (matches : frame) :
  filter (fun f => is_amount_mismatch f)
    (mismatch_flags AMT_TOL DATE_WIN_DAYS fmt_cell fmt fmt_int matches)
  = map (amount_mismatch_flag AMT_TOL fmt_cell fmt)
      (filter (fun r => negb (amt_ok AMT_TOL r)) (rows matches)).
Proof.
  unfold mismatch_flags. induction (rows matches) as [|r rest IH]; [reflexivity|].
  cbn [flat_map]. rewrite filter_app, IH. unfold row_flags.
  rewrite filter_app.
  assert (Hdrift : filter (fun f => is_amount_mismatch f)
            match date_drift r with
            | Some drift =>
                if DATE_WIN_DAYS <? drift
                then [date_drift_flag DATE_WIN_DAYS fmt_int r drift] else []
            | None => []
            end = []).
  { destruct (date_drift r) as [d|]; [|reflexivity].
    destruct (DATE_WIN_DAYS <? d); reflexivity. }
  rewrite Hdrift, app_nil_r.
  rewrite (filter_cons (fun r => negb (amt_ok AMT_TOL r))).
  destruct (amt_ok AMT_TOL r); cbn; reflexivity.
Qed.


(** ** The fallback match *)

(** The two frames the merge of line 122 joins. *)
Definition with_created_date (stripe_charges : frame) : frame :=
  assign stripe_charges "created_date" (fun r => dt_date (get r "created")).

Definition with_posted_date (rms : frame) : frame :=
  assign rms "posted_date"
    (fun r => if has_col (columns rms) "posted_at"
              then dt_date (get r "posted_at") else CNa).

(** The four columns lines 124-135 add to a merged row. *)
Definition fallback_annotate (r : gmap string cell) : gmap string cell :=
  let r := <["amt_match" := CBool (amt_match AMT_TOL r)]> r in
  let r := <["date_match" := CBool (_within_window DATE_WIN_DAYS r)]> r in
  let r := <["match_ok" := CBool (is_true (get r "amt_match")
                                  && is_true (get r "date_match"))]> r in
  <["match_type" := if is_true (get r "match_ok") && isna (get r "match_type")
                    then CStr "fallback" else get r "match_type"]> r.

Lemma fallback_annotate_match_ok r :
  is_true (get (fallback_annotate r) "match_ok") = match_ok AMT_TOL DATE_WIN_DAYS r.
Proof.
  unfold fallback_annotate, get, match_ok, _within_window, get.
  cbn zeta. rewrite lookup_insert_ne by discriminate.
  rewrite lookup_insert_eq. cbn [default is_true].
  rewrite lookup_insert_ne by discriminate. rewrite lookup_insert_eq.
  rewrite lookup_insert_eq. cbn [default is_true].
  rewrite !lookup_insert_ne by discriminate. reflexivity.
Qed.

Lemma filter_map_bool {A B : Type} (f : A -> B) (p : B -> bool) (l : list A) :
  filter (fun y => p y) (map f l) = map f (filter (fun x => p (f x)) l).
Proof.
  induction l as [|x l IH]; [reflexivity|]. cbn [map].
  rewrite !filter_cons, IH. destruct (p (f x)); reflexivity.
Qed.

Lemma filter_ext_bool {A : Type} (p q : A -> bool) (l : list A) :
  (forall x, p x = q x) -> filter (fun x => p x) l = filter (fun x => q x) l.
Proof.
  intros H. apply list_filter_iff. intros x. now rewrite H.
Qed.

Lemma filter_flat_map_bool {A B : Type} (g : A -> list B) (p : B -> bool)
    (l : list A) :
  filter (fun y => p y) (flat_map g l)
  = flat_map (fun x => filter (fun y => p y) (g x)) l.
Proof.
  induction l as [|x l IH]; [reflexivity|]. cbn [flat_map].
  now rewrite filter_app, IH.
Qed.

Lemma map_flat_map {A B C : Type} (f : B -> C) (g : A -> list B) (l : list A) :
  map f (flat_map g l) = flat_map (fun x => map f (g x)) l.
Proof.
  induction l as [|x l IH]; [reflexivity|]. cbn [flat_map].
  now rewrite map_app, IH.
Qed.

(** The candidates of a charge row that pass both filters, each with the
    four added columns. *)
Definition kept_candidates (stripe_charges rms : frame)
    (charge_row : gmap string cell) : list (gmap string cell) :=
  map fallback_annotate
    (filter (fun r => match_ok AMT_TOL DATE_WIN_DAYS r)
       (joined_rows (with_created_date stripe_charges) (with_posted_date rms)
          "email" "_st" "_r" charge_row)).

(** What [_fallback_match] returns when it returns. *)
Lemma fallback_match_rows (stripe_charges rms out : frame) :
  _fallback_match AMT_TOL DATE_WIN_DAYS stripe_charges rms = Ok out ->
  exists m,
    merge_left (with_created_date stripe_charges) (with_posted_date rms)
      "email" "_st" "_r" = Ok m /\
    rows out = map fallback_annotate
                 (filter (fun r => match_ok AMT_TOL DATE_WIN_DAYS r) (rows m)).
Proof.
  unfold _fallback_match.
  destruct (getitem stripe_charges "created") as [created|e]; [|discriminate].
  cbn [mbind res_bind]. fold (with_created_date stripe_charges).
  fold (with_posted_date rms).
  destruct (merge_left _ _ _ _ _) as [m|e]; [|discriminate].
  cbn [mbind res_bind].
  destruct (getitem m "amount") as [c1|e]; [|discriminate]. cbn [mbind res_bind].
  destruct (getitem m "amount_inr") as [c2|e]; [|discriminate].
  cbn [mbind res_bind].
  destruct (getitem _ "match_type") as [c3|e]; [|discriminate].
  cbn [mbind res_bind]. intros [= <-]. exists m. split; [reflexivity|].
  cbn [where_ assign rows]. rewrite !map_map.
  rewrite <- (filter_ext_bool _ _ (rows m) fallback_annotate_match_ok).
  apply (filter_map_bool fallback_annotate
           (fun r => is_true (get r "match_ok"))).
Qed.

Lemma merge_left_rows (left right m : frame) (key sl sr : string) :
  merge_left left right key sl sr = Ok m ->
  rows m = flat_map (joined_rows left right key sl sr) (rows left).
Proof.
  unfold merge_left. destruct (negb _); [discriminate|].
  destruct (negb _); [discriminate|]. now intros [= <-].
Qed.


End Flags.

(** ** The documented frames *)

(** On frames with the documented columns [_fallback_match] stops at line
    135: the merged frame has no [match_type] column to read. *)
Lemma fallback_match_documented_columns AMT_TOL DATE_WIN_DAYS
    (charge_rows rms_rows : list (gmap string cell)) :
  _fallback_match AMT_TOL DATE_WIN_DAYS
    {| columns := STRIPE_COLUMNS; rows := charge_rows |}
    {| columns := RMS_COLUMNS; rows := rms_rows |}
  = Raise (KeyError "match_type").
Proof. reflexivity. Qed.

(** And [build_matches] stops at line 149: both frames have an [email]
    column, so the primary merge holds [email_st] and [email_r] only. *)
Lemma build_matches_documented_columns AMT_TOL DATE_WIN_DAYS
    (charge_rows rms_rows : list (gmap string cell)) :
  build_matches AMT_TOL DATE_WIN_DAYS
    {| columns := STRIPE_COLUMNS; rows := charge_rows |}
    {| columns := RMS_COLUMNS; rows := rms_rows |}
  = Raise (KeyError "email").
Proof. reflexivity. Qed.

(** *** Whatever the columns are *)

Lemma has_col_In (cols : list string) (c : string) :
  has_col cols c = true <-> In c cols.
Proof.
  unfold has_col. rewrite existsb_exists. split.
  - intros (x & Hx & E). apply String.eqb_eq in E. now subst.
  - intros H. exists c. split; [exact H|apply String.eqb_refl].
Qed.

(** No suffix turns a column name into [email]. *)
Lemma suffix_st_not_email c : (c ++ "_st")%string <> "email".
Proof.
  destruct c as [|a1 [|a2 [|a3 [|a4 [|a5 [|a6 c]]]]]]; cbn; discriminate.
Qed.

Lemma suffix_r_not_email c : (c ++ "_r")%string <> "email".
Proof.
  destruct c as [|a1 [|a2 [|a3 [|a4 [|a5 [|a6 c]]]]]]; cbn; discriminate.
Qed.

(** When both frames have an [email] column that is not the key, the
    merged frame has none. *)
Lemma merge_columns_email (lcols rcols : list string) (key : string) :
  key <> "email" -> In "email" lcols -> In "email" rcols ->
  ~ In "email" (merge_columns lcols rcols key "_st" "_r").
Proof.
  intros Hkey Hl Hr Hin.
  assert (Hov : overlaps lcols rcols key "email" = true).
  { unfold overlaps. rewrite (proj2 (has_col_In lcols "email") Hl).
    rewrite (proj2 (has_col_In rcols "email") Hr).
    rewrite andb_true_r, andb_true_r. apply negb_true_iff.
    apply String.eqb_neq. congruence. }
  unfold merge_columns in Hin. apply in_app_or in Hin as [Hin|Hin];
    apply in_map_iff in Hin as (c & Hc & _); unfold suffixed in Hc;
    destruct (overlaps lcols rcols key c) eqn:E.
  - now apply suffix_st_not_email in Hc.
  - subst c. congruence.
  - now apply suffix_r_not_email in Hc.
  - subst c. congruence.
Qed.

(** Selecting a column the frame lacks raises. *)
Lemma select_missing (df : frame) (cols : list string) (c : string) :
  In c cols -> has_col (columns df) c = false ->
  exists e, select df cols = Raise e.
Proof.
  intros Hin Hno. unfold select.
  destruct (filter _ cols) as [|missing rest] eqn:Hf; [|eauto].
  exfalso. apply filter_nil_not_elem_of with (x := c) in Hf.
  - apply Hf. now apply list_elem_of_In.
  - rewrite Hno. exact I.
Qed.

Lemma rename_keeps_email (cols : list string) :
  In "email" cols ->
  In "email" (map (fun c => if String.eqb c "invoice_id" then "invoice_no" else c)
                cols).
Proof.
  intros H. apply in_map_iff. exists "email". split; [reflexivity|exact H].
Qed.

(** X24: on no pair of frames does [build_matches] return a table: if both
    have an [email] column the selection of line 149 fails, and if one has
    not the merge of line 122 does. *)
Lemma build_matches_never_returns AMT_TOL DATE_WIN_DAYS (charges rms : frame) :
  exists e, build_matches AMT_TOL DATE_WIN_DAYS charges rms = Raise e.
Proof.
  unfold build_matches, _primary_match.
  destruct (merge_left (rename charges "invoice_id" "invoice_no") rms
              "invoice_no" "_st" "_r") as [m|e] eqn:Hm; cbn [mbind res_bind];
    [|eauto].
  destruct (getitem m "rms_id") as [ids|e]; cbn [mbind res_bind]; [|eauto].
  destruct (has_col (columns charges) "email") eqn:Hc;
    [destruct (has_col (columns rms) "email") eqn:Hr|].
  - (* both frames have the column: line 149 *)
    assert (Hno : has_col (columns (assign m "match_type"
                   (fun r => if notna (get r "rms_id") then CStr "primary"
                             else CNa))) "email" = false).
    { apply not_true_is_false. rewrite has_col_In. cbn [assign columns].
      assert (Hm' : ~ In "email" (columns m)).
      { unfold merge_left in Hm. destruct (negb _); [discriminate|].
        destruct (negb _); [discriminate|]. injection Hm as <-.
        cbn [columns rename].
        apply merge_columns_email; [discriminate| |now apply has_col_In].
        apply rename_keeps_email. now apply has_col_In. }
      destruct (has_col (columns m) "match_type"); [exact Hm'|].
      intros Hin. apply in_app_or in Hin as [Hin|[Hin|[]]]; [tauto|discriminate]. }
    destruct (select_missing
                (where_ (assign m "match_type"
                           (fun r => if notna (get r "rms_id")
                                     then CStr "primary" else CNa))
                   (fun r => isna (get r "match_type")))
                ["charge_id"; "email"; "amount"; "created"; "invoice_no"]
                "email") as (e & ->); [cbn; tauto|exact Hno|].
    cbn. eauto.
  - (* the postings have no such column: line 122 *)
    destruct (select _ _) as [u|e]; cbn [mbind res_bind]; [|eauto].
    destruct (getitem charges "charge_id") as [c|e]; cbn [mbind res_bind];
      [|eauto].
    unfold _fallback_match.
    destruct (getitem _ "created") as [cr|e]; cbn [mbind res_bind]; [|eauto].
    unfold merge_left. cbn [assign where_ columns].
    destruct (negb (has_col _ "email")); cbn [mbind res_bind]; [eauto|].
    assert (Hr' : has_col (if has_col (columns rms) "posted_date"
                           then columns rms else columns rms ++ ["posted_date"])
                    "email" = false).
    { destruct (has_col (columns rms) "posted_date"); [exact Hr|].
      apply not_true_is_false. rewrite has_col_In. intros Hin.
      apply in_app_or in Hin as [Hin|[Hin|[]]]; [|discriminate].
      apply has_col_In in Hin. congruence. }
    rewrite Hr'. cbn. eauto.
  - (* the charges have no such column: line 122 *)
    destruct (select _ _) as [u|e]; cbn [mbind res_bind]; [|eauto].
    destruct (getitem charges "charge_id") as [c|e]; cbn [mbind res_bind];
      [|eauto].
    unfold _fallback_match.
    destruct (getitem _ "created") as [cr|e]; cbn [mbind res_bind]; [|eauto].
    unfold merge_left. cbn [assign where_ columns].
    assert (Hc' : has_col (if has_col (columns charges) "created_date"
                           then columns charges
                           else columns charges ++ ["created_date"])
                    "email" = false).
    { destruct (has_col (columns charges) "created_date"); [exact Hc|].
      apply not_true_is_false. rewrite has_col_In. intros Hin.
      apply in_app_or in Hin as [Hin|[Hin|[]]]; [|discriminate].
      apply has_col_In in Hin. congruence. }
    rewrite Hc'. cbn. eauto.
Qed.

Lemma suffix_st_not_match_type c : (c ++ "_st")%string <> "match_type".
Proof.
  destruct c as [|a1 [|a2 [|a3 [|a4 [|a5 [|a6 [|a7 [|a8 [|a9 [|a10 [|a11 c]]]]]]]]]]];
    cbn; discriminate.
Qed.

Lemma suffix_r_not_match_type c : (c ++ "_r")%string <> "match_type".
Proof.
  destruct c as [|a1 [|a2 [|a3 [|a4 [|a5 [|a6 [|a7 [|a8 [|a9 [|a10 [|a11 c]]]]]]]]]]];
    cbn; discriminate.
Qed.

(** A merged frame has a [match_type] column only if one side has. *)
Lemma merge_columns_match_type (lcols rcols : list string) (key : string) :
  In "match_type" (merge_columns lcols rcols key "_st" "_r") ->
  In "match_type" lcols \/ In "match_type" rcols.
Proof.
  unfold merge_columns. intros Hin.
  apply in_app_or in Hin as [Hin|Hin];
    apply in_map_iff in Hin as (c & Hc & Hin); unfold suffixed in Hc;
    destruct (overlaps lcols rcols key c).
  - now apply suffix_st_not_match_type in Hc.
  - subst c. now left.
  - now apply suffix_r_not_match_type in Hc.
  - subst c. right. unfold right_columns in Hin.
    apply list_elem_of_In, list_elem_of_filter in Hin as [_ Hin].
    now apply list_elem_of_In.
Qed.

(** Setting a column [c] brings no other column in. *)
Lemma assign_columns_other (cols : list string) (c x : string) :
  x <> c -> In x (if has_col cols c then cols else cols ++ [c]) -> In x cols.
Proof.
  intros Hne. destruct (has_col cols c); [tauto|].
  intros Hin. apply in_app_or in Hin as [Hin|[Hin|[]]]; [exact Hin|congruence].
Qed.

(** X25: unless one of its inputs carries a [match_type] column,
    [_fallback_match] raises: line 135 reads that column of the merged
    frame. *)
Lemma fallback_match_needs_match_type AMT_TOL DATE_WIN_DAYS
    (stripe_charges rms : frame) :
  ~ In "match_type" (columns stripe_charges) ->
  ~ In "match_type" (columns rms) ->
  exists e, _fallback_match AMT_TOL DATE_WIN_DAYS stripe_charges rms = Raise e.
Proof.
  intros Hc Hr. unfold _fallback_match.
  destruct (getitem stripe_charges "created") as [cr|e];
    cbn [mbind res_bind]; [|eauto].
  destruct (merge_left _ _ "email" "_st" "_r") as [m|e] eqn:Hm;
    cbn [mbind res_bind]; [|eauto].
  destruct (getitem m "amount") as [c1|e]; cbn [mbind res_bind]; [|eauto].
  destruct (getitem m "amount_inr") as [c2|e]; cbn [mbind res_bind]; [|eauto].
  assert (Hno : ~ In "match_type" (columns m)).
  { unfold merge_left in Hm. destruct (negb _); [discriminate|].
    destruct (negb _); [discriminate|]. injection Hm as <-.
    cbn [columns assign].
    intros Hin. apply merge_columns_match_type in Hin as [Hin|Hin];
      apply assign_columns_other in Hin; try discriminate; tauto. }
  unfold getitem at 1.
  destruct (has_col _ "match_type") eqn:Hhas; cbn [mbind res_bind]; [|eauto].
  exfalso. apply Hno. apply has_col_In in Hhas. cbn [columns assign] in Hhas.
  repeat (apply assign_columns_other in Hhas; [|discriminate]).
  exact Hhas.
Qed.

(** ** Examples *)

(** A timestamp [secs] seconds into day [d] (days since 1970-01-01). *)
Definition at_day (d secs : Z) : cell := CTime (d * 86400 + secs).

Definition charge (id invoice email : string) (amount : float) (created : cell)
  : gmap string cell :=
  list_to_map
    [("charge_id", CStr id); ("payment_intent", CNa);
     ("invoice_id", CStr invoice); ("email", CStr email);
     ("amount", CNum amount); ("currency", CStr "INR");
     ("created", created); ("status", CStr "succeeded")].

Definition posting (id invoice email : string) (amount : float) (posted : cell)
  : gmap string cell :=
  list_to_map
    [("rms_id", CStr id); ("invoice_no", CStr invoice); ("email", CStr email);
     ("amount_inr", CNum amount); ("currency", CStr "INR");
     ("posted_at", posted); ("stripe_charge_id", CNa);
     ("stripe_invoice_id", CNa)].

(** Renderings for running examples; the digits are not modelled. *)
Definition fmt_cell_opaque (c : cell) : string := "<cell>".
Definition fmt_opaque (x : float) : string := "<float>".
Definition fmt_int_opaque (n : Z) : string := "<int>".

(** One charge of 10000 on 2025-09-20 (day 20351), its frame carrying a
    [match_type] column so that line 135 can read it, and three postings of
    the same payer: 10004 on the same day, 10000 a day later, 10000 four
    days later. *)
Definition one_charge : frame :=
  assign {| columns := STRIPE_COLUMNS;
            rows := [charge "ch_1" "INV-7" "a@x.com" 10000 (at_day 20351 32400)] |}
    "match_type" (fun _ => CNa).

Definition three_postings : frame :=
  {| columns := RMS_COLUMNS;
     rows := [posting "r1" "INV-8" "a@x.com" 10004 (at_day 20351 36000);
              posting "r2" "INV-9" "a@x.com" 10000 (at_day 20352 36000);
              posting "r3" "INV-10" "a@x.com" 10000 (at_day 20355 36000)] |}.



(** The primary match has the same shape: a charge whose invoice number
    is on two postings gets a record with each. *)
Example primary_match_keeps_both_postings :
  exists m,
    _primary_match
      {| columns := STRIPE_COLUMNS;
         rows := [charge "ch_1" "INV-7" "a@x.com" 10000 (at_day 20351 32400)] |}
      {| columns := RMS_COLUMNS;
         rows := [posting "r1" "INV-7" "a@x.com" 10000 (at_day 20351 36000);
                  posting "r2" "INV-7" "a@x.com" 10000 (at_day 20352 36000)] |}
    = Ok m /\
    map (fun r => (get r "charge_id", get r "rms_id", get r "match_type"))
      (rows m)
    = [(CStr "ch_1", CStr "r1", CStr "primary");
       (CStr "ch_1", CStr "r2", CStr "primary")].
Proof. eexists. split; reflexivity. Qed.

(** A charge none of whose candidates passes gets no record. *)
Example fallback_drops_unmatched_charge :
  exists out,
    _fallback_match 5 2 one_charge
      {| columns := RMS_COLUMNS;
         rows := [posting "r3" "INV-10" "a@x.com" 10000 (at_day 20355 36000)] |}
    = Ok out /\ rows out = [].
Proof. eexists. split; reflexivity. Qed.

(** A charge of 100 whose posting, found by its invoice number, has no
    amount, and a pair whose amounts differ by exactly the tolerance. *)
Definition charge_100 : frame :=
  {| columns := STRIPE_COLUMNS;
     rows := [charge "ch_5" "INV-5" "c@x.com" 100 (at_day 20351 32400)] |}.

Definition posting_without_amount : frame :=
  {| columns := RMS_COLUMNS;
     rows := [posting "r5" "INV-5" "c@x.com" PrimFloat.nan (at_day 20351 36000)] |}.


Definition pair_at_tolerance : gmap string cell :=
  list_to_map [("charge_id", CStr "ch_6"); ("invoice_no", CStr "INV-6");
               ("amount", CNum 10000); ("amount_inr", CNum 10005)].


(** One unit further apart the pair is flagged. *)
Example pair_above_tolerance_is_flagged :
  raises_amount_mismatch 5 2 fmt_cell_opaque fmt_opaque fmt_int_opaque
    (<["amount_inr" := CNum 10006]> pair_at_tolerance) = true.
Proof. reflexivity. Qed.

End StripeIntegrityCheckerSpec.
(** * Further properties of the Stripe checker *)
Module StripeIntegrityCheckerProps.
Import Pandas StripeIntegrityChecker StripeIntegrityCheckerSpec FloatFacts
  NanFacts.

(** ** Numbers under a comparison *)

Lemma leb_nan_l y : (PrimFloat.nan <=? y)%float = false.
Proof.
  rewrite leb_spec, Prim2SF_nan.
  destruct (Prim2SF y) as [[]|[]| |[] ? ?]; reflexivity.
Qed.

(** A difference within a tolerance is a difference of two numbers. *)
Lemma within_tolerance_numbers x y tol :
  (PrimFloat.abs (x - y) <=? tol)%float = true ->
  PrimFloat.is_nan x = false /\ PrimFloat.is_nan y = false.
Proof.
  intros H. split.
  - destruct (PrimFloat.is_nan x) eqn:E; [|reflexivity].
    apply is_nan_eq in E. subst x. rewrite sub_nan_l in H.
    change (PrimFloat.abs PrimFloat.nan) with PrimFloat.nan in H.
    now rewrite leb_nan_l in H.
  - destruct (PrimFloat.is_nan y) eqn:E; [|reflexivity].
    apply is_nan_eq in E. subst y. rewrite sub_nan_r in H.
    change (PrimFloat.abs PrimFloat.nan) with PrimFloat.nan in H.
    now rewrite leb_nan_l in H.
Qed.

Lemma num_number c : PrimFloat.is_nan (num c) = false -> notna c = true.
Proof. destruct c; cbn; try discriminate. unfold notna. cbn. now intros ->. Qed.

(** ** Column names that no suffix produces *)

(** Compare a suffixed name with a literal, character by character. *)
Ltac not_suffixed c :=
  repeat (first [discriminate | destruct c as [|? c]; cbn]).

Definition plain (k : string) : Prop :=
  forall c, (c ++ "_st")%string <> k /\ (c ++ "_r")%string <> k.

Lemma plain_created : plain "created".
Proof. intros c. split; not_suffixed c. Qed.

Lemma plain_created_date : plain "created_date".
Proof. intros c. split; not_suffixed c. Qed.

Lemma plain_posted_at : plain "posted_at".
Proof. intros c. split; not_suffixed c. Qed.

Lemma plain_posted_date : plain "posted_date".
Proof. intros c. split; not_suffixed c. Qed.

(** Where a plain column of a merged row comes from: the left row, or the
    partner, and never both. *)
Lemma merge_row_plain lcols rcols key l ro k v :
  plain k ->
  merge_row lcols rcols key "_st" "_r" l ro !! k = Some v ->
  (In k lcols /\ overlaps lcols rcols key k = false /\ v = get l k)
  \/ (In k rcols /\ overlaps lcols rcols key k = false
      /\ v = from_option (fun row => get row k) CNa ro).
Proof.
  intros Hk H. unfold merge_row in H.
  apply elem_of_list_to_map_2, list_elem_of_In, in_app_or in H.
  destruct H as [H|H]; apply in_map_iff in H as (c & E & Hin);
    injection E as Ec Ev; unfold suffixed in Ec;
    destruct (overlaps lcols rcols key c) eqn:Hov.
  - now apply Hk in Ec.
  - subst c. left. auto.
  - now apply Hk in Ec.
  - subst c. right. unfold right_columns in Hin.
    apply list_elem_of_In, list_elem_of_filter in Hin as [_ Hin].
    apply list_elem_of_In in Hin. auto.
Qed.

Lemma overlaps_both lcols rcols key k :
  In k lcols -> In k rcols -> String.eqb k key = false ->
  overlaps lcols rcols key k = true.
Proof.
  intros Hl Hr Hkey. unfold overlaps. rewrite Hkey.
  now rewrite (proj2 (has_col_In lcols k) Hl), (proj2 (has_col_In rcols k) Hr).
Qed.

Lemma assign_has_column df c f : In c (columns (assign df c f)).
Proof.
  cbn. destruct (has_col (columns df) c) eqn:E.
  - now apply has_col_In.
  - apply in_or_app. right. now left.
Qed.

Lemma assign_keeps_columns df c f k :
  In k (columns df) -> In k (columns (assign df c f)).
Proof.
  cbn. destruct (has_col (columns df) c); [auto|].
  intros H. apply in_or_app. now left.
Qed.

Lemma get_present r k v : v <> CNa -> get r k = v -> r !! k = Some v.
Proof. unfold get. destruct (r !! k); cbn; congruence. Qed.

Lemma dt_date_CDate c d : dt_date c = CDate d -> exists t, c = CTime t /\ d = t / 86400.
Proof. destruct c; cbn; try discriminate. intros [= <-]. eauto. Qed.

Lemma flat_map_nil {A B : Type} (f : A -> list B) (l : list A) :
  (forall x, In x l -> f x = []) -> flat_map f l = [].
Proof.
  induction l as [|x rest IH]; [reflexivity|]. intros H. cbn [flat_map].
  rewrite (H x) by now left. apply IH. intros y Hy. apply H. now right.
Qed.

Section Flags.
Variables (AMT_TOL : float) (DATE_WIN_DAYS : Z).
Variables (fmt_cell : cell -> string) (fmt : float -> string)
          (fmt_int : Z -> string).

Local Abbreviation flags_of :=
  (row_flags AMT_TOL DATE_WIN_DAYS fmt_cell fmt fmt_int).
Local Abbreviation annotate := (fallback_annotate AMT_TOL DATE_WIN_DAYS).

(** ** DateDrift *)

Definition is_date_drift (f : Flag) : bool :=
  String.eqb (flag f) "DateDrift".

(** The row raises a DateDrift flag. *)
Definition raises_date_drift (r : gmap string cell) : bool :=
  existsb is_date_drift (flags_of r).

Lemma raises_date_drift_drift r :
  raises_date_drift r
  = match date_drift r with
    | Some drift => DATE_WIN_DAYS <? drift
    | None => false
    end.
Proof.
  unfold raises_date_drift, row_flags. rewrite existsb_app.
  assert (Hamt : existsb is_date_drift
            (if amt_ok AMT_TOL r then []
             else [amount_mismatch_flag AMT_TOL fmt_cell fmt r]) = false)
    by (destruct (amt_ok AMT_TOL r); reflexivity).
  rewrite Hamt. cbn [orb].
  destruct (date_drift r) as [d|]; [|reflexivity].
  destruct (DATE_WIN_DAYS <? d); reflexivity.
Qed.


(** ** What the fallback keeps, the flags accept *)

(** The annotations of lines 124-135 leave the other columns alone. *)
Lemma annotate_lookup r k :
  k <> "amt_match" -> k <> "date_match" -> k <> "match_ok" ->
  k <> "match_type" -> annotate r !! k = r !! k.
Proof.
  intros. unfold fallback_annotate. cbn zeta.
  now rewrite !lookup_insert_ne by congruence.
Qed.

Lemma amt_match_amt_ok r : amt_match AMT_TOL r = true -> amt_ok AMT_TOL r = true.
Proof.
  unfold amt_match, amt_ok. intros H. rewrite H.
  apply within_tolerance_numbers in H as [Ha Hb].
  now rewrite (num_number _ Ha), (num_number _ Hb).
Qed.

(** In a row of the merge of line 122 the two dates are the days of the
    two timestamps. *)
Lemma merged_row_dates (stripe_charges rms : frame) l ro c p d1 d2 :
  let sc := with_created_date stripe_charges in
  let rm := with_posted_date rms in
  let r := merge_row (columns sc) (columns rm) "email" "_st" "_r" l ro in
  In "created" (columns stripe_charges) ->
  In l (rows sc) ->
  match ro with Some partner => In partner (rows rm) | None => True end ->
  r !! "created" = Some (CTime c) -> r !! "posted_at" = Some (CTime p) ->
  get r "created_date" = CDate d1 -> get r "posted_date" = CDate d2 ->
  d1 = c / 86400 /\ d2 = p / 86400.
Proof.
  intros sc rm r Hcreated Hl Hro Hc Hp Hd1 Hd2.
  apply get_present in Hd1; [|discriminate].
  apply get_present in Hd2; [|discriminate].
  assert (Hsc_created : In "created" (columns sc))
    by now apply assign_keeps_columns.
  assert (Hsc_date : In "created_date" (columns sc))
    by apply assign_has_column.
  assert (Hrm_date : In "posted_date" (columns rm))
    by apply assign_has_column.
  cbn [rows with_created_date with_posted_date assign] in Hl, Hro.
  apply in_map_iff in Hl as (l0 & <- & _).
  split.
  - destruct (merge_row_plain _ _ _ _ _ _ _ plain_created Hc)
      as [(_ & _ & Hc')|(Hin & Hov & _)].
    2:{ rewrite overlaps_both in Hov; [discriminate|assumption..|reflexivity]. }
    destruct (merge_row_plain _ _ _ _ _ _ _ plain_created_date Hd1)
      as [(_ & _ & Hd1')|(Hin & Hov & _)].
    2:{ rewrite overlaps_both in Hov; [discriminate|assumption..|reflexivity]. }
    unfold get in Hc', Hd1'. rewrite lookup_insert_ne in Hc' by discriminate.
    rewrite lookup_insert_eq in Hd1'. cbn in Hd1'.
    unfold get in Hd1'. rewrite <- Hc' in Hd1'. now injection Hd1'.
  - destruct (merge_row_plain _ _ _ _ _ _ _ plain_posted_date Hd2)
      as [(Hin & Hov & _)|(_ & _ & Hd2')].
    { rewrite overlaps_both in Hov; [discriminate|assumption..|reflexivity]. }
    destruct ro as [partner|]; [|discriminate]. cbn in Hd2'.
    apply in_map_iff in Hro as (r0 & <- & _).
    unfold get in Hd2'. rewrite lookup_insert_eq in Hd2'. cbn in Hd2'.
    destruct (has_col (columns rms) "posted_at") eqn:Hhas; [|discriminate].
    symmetry in Hd2'. apply dt_date_CDate in Hd2' as (t & Ht & ->).
    assert (Hrm_at : In "posted_at" (columns rm))
      by now apply assign_keeps_columns, has_col_In.
    destruct (merge_row_plain _ _ _ _ _ _ _ plain_posted_at Hp)
      as [(Hin & Hov & _)|(_ & _ & Hp')].
    { rewrite overlaps_both in Hov; [discriminate|assumption..|reflexivity]. }
    cbn in Hp'. unfold get in Hp'.
    rewrite lookup_insert_ne in Hp' by discriminate.
    unfold get in Ht. rewrite Ht in Hp'. now injection Hp' as <-.
Qed.

(** A row the fallback keeps raises no flag, whatever its [match_type]
    is set to afterwards. *)
Lemma kept_row_raises_no_flag (stripe_charges rms : frame) l r0 v :
  In "created" (columns stripe_charges) ->
  In l (rows (with_created_date stripe_charges)) ->
  In r0 (joined_rows (with_created_date stripe_charges)
           (with_posted_date rms) "email" "_st" "_r" l) ->
  match_ok AMT_TOL DATE_WIN_DAYS r0 = true ->
  flags_of (annotate r0) = [] /\
  flags_of (<["match_type" := v]> (annotate r0)) = [].
Proof.
  intros Hcreated Hl Hr0 Hok.
  apply andb_true_iff in Hok as [Hamt Hwin].
  assert (Hro : exists ro,
    r0 = merge_row (columns (with_created_date stripe_charges))
           (columns (with_posted_date rms)) "email" "_st" "_r" l ro /\
    match ro with
    | Some partner => In partner (rows (with_posted_date rms))
    | None => True
    end).
  { unfold joined_rows in Hr0.
    destruct (partners _ _ _) as [|q qs] eqn:Hps.
    - destruct Hr0 as [<-|[]]. exists None. auto.
    - apply in_map_iff in Hr0 as (partner & <- & Hin).
      exists (Some partner). split; [reflexivity|].
      rewrite <- Hps in Hin. unfold partners in Hin.
      apply list_elem_of_In, list_elem_of_filter in Hin as [_ Hin].
      now apply list_elem_of_In. }
  destruct Hro as (ro & Er0 & Hro).
  assert (Hdrift : match date_drift r0 with
                   | Some drift => (DATE_WIN_DAYS <? drift) = false
                   | None => True
                   end).
  { unfold date_drift.
    destruct (r0 !! "created") as [[| | |c| |]|] eqn:Hc; try exact I.
    destruct (r0 !! "posted_at") as [[| | |p| |]|] eqn:Hp; try exact I.
    unfold _within_window in Hwin.
    destruct (get r0 "created_date") as [| | | |d1|] eqn:Hd1; try discriminate.
    destruct (get r0 "posted_date") as [| | | |d2|] eqn:Hd2; try discriminate.
    rewrite Er0 in Hc, Hp, Hd1, Hd2.
    destruct (merged_row_dates stripe_charges rms l ro c p d1 d2
                Hcreated Hl Hro Hc Hp Hd1 Hd2) as [-> ->].
    apply Z.leb_le in Hwin. apply Z.ltb_ge. exact Hwin. }
  assert (Hflags : forall r,
    (forall k, k <> "amt_match" -> k <> "date_match" -> k <> "match_ok" ->
               k <> "match_type" -> r !! k = r0 !! k) ->
    flags_of r = []).
  { intros r Hsame. unfold row_flags.
    assert (Eamt : amt_ok AMT_TOL r = amt_ok AMT_TOL r0).
    { unfold amt_ok, get. now rewrite !Hsame by discriminate. }
    assert (Edrift : date_drift r = date_drift r0).
    { unfold date_drift. now rewrite !Hsame by discriminate. }
    rewrite Eamt, Edrift, (amt_match_amt_ok r0 Hamt).
    destruct (date_drift r0) as [d|]; [|reflexivity]. now rewrite Hdrift. }
  split; apply Hflags; intros k H1 H2 H3 H4.
  - now apply annotate_lookup.
  - rewrite lookup_insert_ne by congruence. now apply annotate_lookup.
Qed.


End Flags.

(** ** Examples *)

(** A charge and a posting made two days and some hours apart. *)
Definition two_days_apart : gmap string cell :=
  {[ "created" := at_day 20351 82800; "posted_at" := at_day 20353 3600 ]}.



(** The frames as documented, without a [match_type] column. *)
Lemma fallback_match_needs_match_type_witness :
  exists e,
    _fallback_match 5 2
      {| columns := STRIPE_COLUMNS;
         rows := [charge "ch_1" "INV-7" "a@x.com" 10000 (at_day 20351 32400)] |}
      three_postings
    = Raise e.
Proof.
  apply fallback_match_needs_match_type; cbn; intros H;
    repeat (destruct H as [H|H]; [discriminate H|]); exact H.
Defined.

End StripeIntegrityCheckerProps.
(** * Properties of the configuration *)
Module ProductionConfigProps.
Import PyStr ProductionConfig.

(** ** [_split_csv] *)

Local Abbreviation chars := list_ascii_of_string.

(** A string that does not start with white space. *)
Definition no_lead (s : string) : Prop :=
  match s with
  | EmptyString => True
  | String c _ => is_space c = false
  end.

Lemma lstrip_no_lead s : no_lead (lstrip s).
Proof.
  induction s as [|c rest IH]; cbn; [exact I|].
  destruct (is_space c) eqn:E; [exact IH|exact E].
Qed.

Lemma no_lead_lstrip s : no_lead s -> lstrip s = s.
Proof. destruct s as [|c rest]; cbn; [reflexivity|]. now intros ->. Qed.

Lemma rstrip_no_lead s : no_lead s -> no_lead (rstrip s).
Proof.
  destruct s as [|c rest]; cbn; [auto|]. intros E.
  destruct (rstrip rest); [rewrite E|]; cbn; exact E.
Qed.

Lemma rstrip_idem s : rstrip (rstrip s) = rstrip s.
Proof.
  induction s as [|c rest IH]; cbn; [reflexivity|].
  destruct (rstrip rest) as [|k kept] eqn:E.
  - destruct (is_space c) eqn:Ec; cbn; [reflexivity|now rewrite Ec].
  - cbn [rstrip] in IH |- *. now rewrite IH.
Qed.

(** Stripping twice is stripping once. *)
Lemma strip_idem s : strip (strip s) = strip s.
Proof.
  unfold strip.
  rewrite (no_lead_lstrip (rstrip (lstrip s)))
    by apply rstrip_no_lead, lstrip_no_lead.
  apply rstrip_idem.
Qed.

Lemma lstrip_chars s c : In c (chars (lstrip s)) -> In c (chars s).
Proof.
  induction s as [|a rest IH]; cbn; [auto|].
  destruct (is_space a); cbn; auto.
Qed.

Lemma rstrip_chars s c : In c (chars (rstrip s)) -> In c (chars s).
Proof.
  induction s as [|a rest IH]; cbn; [auto|].
  destruct (rstrip rest) as [|k kept].
  - destruct (is_space a); cbn; [tauto|]. intros [H|[]]. now left.
  - cbn in IH |- *. intros [H|H]; [now left|right; now apply IH].
Qed.

Lemma strip_chars s c : In c (chars (strip s)) -> In c (chars s).
Proof. intros H. now apply lstrip_chars, rstrip_chars. Qed.

(** [split] never returns the empty list, and none of its pieces holds
    the separator. *)
Lemma split_not_nil sep s : split sep s <> [].
Proof.
  induction s as [|c rest IH]; cbn; [discriminate|].
  destruct (Ascii.eqb c sep); [discriminate|].
  destruct (split sep rest); [contradiction|discriminate].
Qed.

Lemma split_pieces sep s :
  Forall (fun piece => ~ In sep (chars piece)) (split sep s).
Proof.
  induction s as [|c rest IH]; cbn.
  - constructor; [intros []|constructor].
  - destruct (Ascii.eqb_spec c sep) as [->|Hne].
    + constructor; [intros []|exact IH].
    + destruct (split sep rest) as [|piece pieces];
        [constructor; [|constructor]; cbn; intuition congruence|].
      inversion IH as [|? ? Hpiece Hpieces]; subst.
      constructor; [|exact Hpieces]. cbn. intuition congruence.
Qed.

(** Splitting what [join] put together gives the pieces back. *)
Lemma split_single sep s : ~ In sep (chars s) -> split sep s = [s].
Proof.
  induction s as [|c rest IH]; cbn; [reflexivity|]. intros H.
  destruct (Ascii.eqb_spec c sep) as [->|Hne]; [tauto|].
  rewrite IH by tauto. reflexivity.
Qed.

Lemma split_append sep s rest :
  ~ In sep (chars s) ->
  split sep (s ++ String sep rest) = s :: split sep rest.
Proof.
  induction s as [|c s' IH]; simpl; intros H.
  - now rewrite Ascii.eqb_refl.
  - destruct (Ascii.eqb_spec c sep) as [->|Hne]; [tauto|].
    rewrite IH by tauto. reflexivity.
Qed.

Lemma split_join sep (pieces : list string) :
  pieces <> [] -> Forall (fun piece => ~ In sep (chars piece)) pieces ->
  split sep (join (String sep "") pieces) = pieces.
Proof.
  induction pieces as [|p rest IH]; [contradiction|]. intros _ Hall.
  inversion Hall as [|? ? Hp Hrest]; subst.
  destruct rest as [|q rest'].
  - cbn. now apply split_single.
  - change (join (String sep "") (p :: q :: rest'))
      with (p ++ String sep (join (String sep "") (q :: rest')))%string.
    rewrite split_append by exact Hp. f_equal. apply IH; [discriminate|exact Hrest].
Qed.

(** An item [_split_csv] can return. *)
Definition clean_item (x : string) : Prop :=
  x <> "" /\ strip x = x /\ ~ In ","%char (chars x).

Lemma split_csv_clean val : Forall clean_item (_split_csv val).
Proof.
  unfold _split_csv.
  pose proof (split_pieces "," (default "" val)) as Hpieces.
  induction (split "," (default "" val)) as [|piece pieces IH];
    [constructor|].
  inversion Hpieces as [|? ? Hpiece Hrest]; subst.
  rewrite filter_cons. cbn beta.
  destruct (String.eqb (strip piece) "") eqn:E.
  - rewrite decide_False by (cbn; auto). now apply IH.
  - rewrite decide_True by exact I. apply String.eqb_neq in E.
    cbn [map]. constructor; [|now apply IH].
    repeat split; [exact E|apply strip_idem|].
    intros H. now apply Hpiece, strip_chars.
Qed.

(** X15: the items [_split_csv] returns are clean: none is empty, none
    starts or ends with white space, none holds a comma; and a missing or
    empty value gives no item. *)
Theorem split_csv_items_clean (val : option string) :
  Forall clean_item (_split_csv val) /\
  _split_csv None = [] /\ _split_csv (Some "") = [].
Proof. split; [apply split_csv_clean|split; reflexivity]. Qed.

Lemma filter_clean (items : list string) :
  Forall clean_item items ->
  map strip (filter (fun x => negb (String.eqb (strip x) "")) items) = items.
Proof.
  induction 1 as [|x rest (Hne & Hstrip & _) _ IH]; [reflexivity|].
  rewrite filter_cons. cbn beta. rewrite Hstrip.
  apply String.eqb_neq in Hne. rewrite Hne.
  rewrite decide_True by exact I. cbn [map]. now rewrite Hstrip, IH.
Qed.

(** X16: [_split_csv] reads back what it returned: joining its items
    with commas and splitting again gives the same items. *)
Theorem split_csv_join (val : option string) :
  _split_csv (Some (join "," (_split_csv val))) = _split_csv val.
Proof.
  pose proof (split_csv_clean val) as Hclean.
  destruct (_split_csv val) as [|x rest] eqn:E; [reflexivity|].
  unfold _split_csv at 1. change (default "" (Some ?s)) with s.
  rewrite split_join.
  - now apply filter_clean.
  - discriminate.
  - eapply Forall_impl; [exact Hclean|]. intros y (_ & _ & H). exact H.
Qed.

Example split_csv_holidays :
  _split_csv (Some " 2025-01-01, 2025-08-15 ,,2025-10-02 ")
  = ["2025-01-01"; "2025-08-15"; "2025-10-02"].
Proof. reflexivity. Qed.

(** ** The SLA of the credit-card monitor *)

Section Environment.
Variable environ : gmap string string.
Variable float_ : string -> option float.
Variable int_ : string -> option Z.

Local Abbreviation imported := (SETTINGS environ float_ int_).

(** The dict [production_config] exports has no [sla] entry. *)
Lemma SETTINGS_no_sla settings :
  imported = Loaded settings ->
  exists entries, settings = VDict entries /\ find_entry entries "sla" = None.
Proof.
  unfold SETTINGS.
  repeat match goal with
  | |- context [mbind _ ?c] =>
      destruct c as [?|?]; cbn [mbind import_bind]; [|discriminate]
  end.
  intros [= <-]. eexists. split; reflexivity.
Qed.

Lemma sla_setting_default key default :
  In key ["working_days"; "invoice_later_days"; "finance_escalation_days"] ->
  (key = "working_days" -> default = 3) ->
  (key = "invoice_later_days" -> default = 14) ->
  (key = "finance_escalation_days" -> default = 30) ->
  CcMonitorSettings.sla_setting int_ imported key default = Loaded default.
Proof.
  intros Hkey H3 H14 H30. unfold CcMonitorSettings.sla_setting.
  destruct imported as [settings|e] eqn:E.
  - apply SETTINGS_no_sla in E as (entries & -> & Hno). cbn.
    rewrite Hno. reflexivity.
  - cbn in Hkey. destruct Hkey as [<-|[<-|[<-|[]]]];
      [rewrite H3|rewrite H14|rewrite H30]; reflexivity.
Qed.


(** Evaluate a component of the settings on every outcome of the
    environment and of the parsers. *)
Ltac each_outcome :=
  unfold TIMEZONE, PATHS, THRESHOLDS, HOLIDAYS, EMAIL, DATABASE, REDIS, SMTP,
    SLACK, STRIPE, FX, RMS, _get, to_float, to_int, is_true_text;
  cbn;
  repeat match goal with
  | |- context [environ !! ?k] => destruct (environ !! k); cbn
  | |- context [float_ ?s] => destruct (float_ s); cbn
  | |- context [int_ ?s] => destruct (int_ s); cbn
  | |- context [String.eqb ?s ""] => destruct (String.eqb s ""); cbn
  end.

(** No component of the module raises [ImportError]. *)
Lemma component_failure e :
  TIMEZONE environ = Failed e \/ PATHS environ = Failed e
  \/ THRESHOLDS environ float_ int_ = Failed e \/ HOLIDAYS environ = Failed e
  \/ EMAIL environ = Failed e \/ DATABASE environ = Failed e
  \/ REDIS environ = Failed e \/ SMTP environ int_ = Failed e
  \/ SLACK environ = Failed e \/ STRIPE environ = Failed e
  \/ FX environ = Failed e \/ RMS environ = Failed e ->
  e <> ImportError.
Proof.
  intros H. repeat destruct H as [H|H]; revert H; each_outcome;
    intros [= <-]; discriminate.
Qed.

(** Without a key for Stripe the import of [production_config] raises:
    at line 88, unless a number before it did not parse. *)
Lemma SETTINGS_needs_stripe_key :
  environ !! "STRIPE_API_KEY" = None \/ environ !! "STRIPE_API_KEY" = Some "" ->
  exists e, imported = Failed e /\ e <> ImportError.
Proof.
  intros Hkey.
  assert (Hstripe : forall v, STRIPE environ <> Loaded v).
  { intros v. unfold STRIPE, _get. destruct Hkey as [-> | ->]; discriminate. }
  unfold SETTINGS.
  destruct (TIMEZONE environ) as [?|e] eqn:E1; cbn [mbind import_bind];
    [|exists e; split; [reflexivity|apply component_failure; tauto]].
  destruct (PATHS environ) as [?|e] eqn:E2; cbn [mbind import_bind];
    [|exists e; split; [reflexivity|apply component_failure; tauto]].
  destruct (THRESHOLDS environ float_ int_) as [?|e] eqn:E3;
    cbn [mbind import_bind];
    [|exists e; split; [reflexivity|apply component_failure; tauto]].
  destruct (HOLIDAYS environ) as [?|e] eqn:E4; cbn [mbind import_bind];
    [|exists e; split; [reflexivity|apply component_failure; tauto]].
  destruct (EMAIL environ) as [?|e] eqn:E5; cbn [mbind import_bind];
    [|exists e; split; [reflexivity|apply component_failure; tauto]].
  destruct (DATABASE environ) as [?|e] eqn:E6; cbn [mbind import_bind];
    [|exists e; split; [reflexivity|apply component_failure; tauto]].
  destruct (REDIS environ) as [?|e] eqn:E7; cbn [mbind import_bind];
    [|exists e; split; [reflexivity|apply component_failure; tauto]].
  destruct (SMTP environ int_) as [?|e] eqn:E8; cbn [mbind import_bind];
    [|exists e; split; [reflexivity|apply component_failure; tauto]].
  destruct (SLACK environ) as [?|e] eqn:E9; cbn [mbind import_bind];
    [|exists e; split; [reflexivity|apply component_failure; tauto]].
  destruct (STRIPE environ) as [v|e] eqn:E10; cbn [mbind import_bind];
    [|exists e; split; [reflexivity|apply component_failure; tauto]].
  now destruct (Hstripe v).
Qed.

(** X18: without STRIPE_API_KEY, or with an empty one, the import of
    [production_config] raises, and the modules part ways: cc_monitor
    catches every exception and runs on its fallback dict, while
    markup_analyzer catches [ImportError] only, so the exception leaves it
    and its tolerances are never set. *)
Theorem missing_stripe_key_splits_the_modules :
  environ !! "STRIPE_API_KEY" = None \/ environ !! "STRIPE_API_KEY" = Some "" ->
  exists e,
    imported = Failed e /\
    CcMonitorSettings.SETTINGS imported = CcMonitorSettings.FALLBACK_SETTINGS /\
    MarkupAnalyzerSettings.FX_MARKUP_TOL imported = Failed e /\
    MarkupAnalyzerSettings.FX_INR_TOL imported = Failed e.
Proof.
  intros Hkey. destruct (SETTINGS_needs_stripe_key Hkey) as (e & He & Hne).
  exists e. rewrite He. repeat split;
    unfold MarkupAnalyzerSettings.FX_MARKUP_TOL,
      MarkupAnalyzerSettings.FX_INR_TOL, MarkupAnalyzerSettings.threshold;
    destruct e; try contradiction; reflexivity.
Qed.

End Environment.

(** An environment that sets the key and asks for a five-day SLA. *)
Definition five_day_environ : gmap string string :=
  {[ "STRIPE_API_KEY" := "sk_test"; "LATE_ENTRY_WORKING_DAYS" := "5" ]}.

(** A parser of a few numerals, for running examples. *)
Definition int_of_numeral (s : string) : option Z :=
  if String.eqb s "2" then Some 2 else if String.eqb s "3" then Some 3
  else if String.eqb s "5" then Some 5 else if String.eqb s "14" then Some 14
  else if String.eqb s "30" then Some 30
  else if String.eqb s "587" then Some 587 else None.

Definition float_of_numeral (s : string) : option float :=
  if String.eqb s "2.5" then Some 2.5%float
  else if String.eqb s "10" then Some 10%float
  else if String.eqb s "100" then Some 100%float else None.

(** The setting reaches [thresholds], and the monitor still runs on 3. *)
Example five_day_sla_is_not_read :
  (thresholds ← SETTINGS five_day_environ float_of_numeral int_of_numeral
                  ≫= (fun s => dict_item s "thresholds");
   dict_item thresholds "late_entry_working_days") = Loaded (VInt 5) /\
  CcMonitorSettings.SLA_WDAYS int_of_numeral
    (SETTINGS five_day_environ float_of_numeral int_of_numeral) = Loaded 3.
Proof. split; reflexivity. Qed.

Lemma missing_stripe_key_splits_the_modules_witness :
  exists e,
    SETTINGS ∅ float_of_numeral int_of_numeral = Failed e /\
    CcMonitorSettings.SETTINGS (SETTINGS ∅ float_of_numeral int_of_numeral)
      = CcMonitorSettings.FALLBACK_SETTINGS /\
    MarkupAnalyzerSettings.FX_MARKUP_TOL
      (SETTINGS ∅ float_of_numeral int_of_numeral) = Failed e /\
    MarkupAnalyzerSettings.FX_INR_TOL
      (SETTINGS ∅ float_of_numeral int_of_numeral) = Failed e.
Proof.
  apply (missing_stripe_key_splits_the_modules ∅ float_of_numeral
           int_of_numeral).
  left. reflexivity.
Defined.

End ProductionConfigProps.
